(** * The TTL cache of the recipe explorer (src/cache.js)

    A shallow embedding of [initializeCache], [getFromCache], [saveToCache],
    [clearExpiredCache] and [getCachedOrFetch], and the properties the
    specification states about them.

    Modelling decisions, all visible in the definitions below:
    - the cache file is the only file the module touches; its text is
      represented by what [JSON.parse] makes of it: either it does not parse
      ([Malformed]) or it is a document with the cache layout, an object
      mapping keys to [{timestamp, data}] items ([Document]): the own
      properties of the parsed object.  The one key an object does not treat
      as a plain property name, ["__proto__"], is handled in [assign];
    - the medium counts the writes it has accepted ([writes]), so that a
      file written back with the content it had is told from a file left
      alone;
    - [Date.now()] reads the field [now] of the world; time passes between
      operations and while a fetch function runs;
    - the [fs/promises] calls can fail: a missing file, a medium that cannot
      be read or cannot be written;
    - an [async] function is a function from the world to an outcome (a
      returned value or a thrown error) and the world it leaves. *)

From Stdlib Require Import ZArith String List.
From stdpp Require Import base option gmap strings list fin_maps.

Set Warnings "-register-all".

Open Scope string_scope.
Open Scope Z_scope.

(** ** Values *)

(** Payloads are JSON values: what survives [JSON.stringify] and
    [JSON.parse].  Numbers are integers here; no property below looks at a
    fractional part. *)
Inductive JSON : Type :=
| JNull
| JBool (b : bool)
| JNum (z : Z)
| JStr (s : string)
| JArr (items : list JSON)
| JObj (fields : list (string * JSON)).

(** JavaScript's ToBoolean, as used by [if (!data)]: [null], [false], [0]
    and the empty string are falsy, every array and object is truthy, the
    empty ones included. *)
Definition truthy (v : JSON) : bool :=
  match v with
  | JNull => false
  | JBool b => b
  | JNum z => negb (z =? 0)
  | JStr s => negb (String.eqb s "")
  | JArr _ => true
  | JObj _ => true
  end.

(** An [Error] object: its name, its message and its optional [cause]. *)
Inductive JsError : Type :=
| MkError (name message : string) (cause : option JsError).

Definition error_message (e : JsError) : string :=
  match e with MkError _ m _ => m end.

Definition error_cause (e : JsError) : option JsError :=
  match e with MkError _ _ c => c end.

(** [new Error(message)] *)
Definition new_Error (message : string) : JsError :=
  MkError "Error" message None.

(** ** The cache document *)

(** One cache item: [{ timestamp: Date.now(), data }]. *)
Record CacheItem : Type := mkItem {
  timestamp : Z;
  data : JSON
}.

(** The text of the cache file, seen through [JSON.parse]. *)
Inductive FileText : Type :=
| Malformed (raw : string)
| Document (cache : gmap string CacheItem).

(** The storage medium: the cache file, when it exists, whether the medium
    can be read and written, and how many times [fs.writeFile] has written
    the file. *)
Record Disk : Type := mkDisk {
  file : option FileText;
  readable : bool;
  writable : bool;
  writes : nat
}.

Record World : Type := mkWorld {
  disk : Disk;
  now : Z;
  console : list string
}.

(** The world after one write of [t] to the file. *)
Definition set_file (t : FileText) (w : World) : World :=
  mkWorld (mkDisk (Some t) (readable (disk w)) (writable (disk w))
                  (S (writes (disk w))))
          (now w) (console w).

Definition set_now (t : Z) (w : World) : World :=
  mkWorld (disk w) t (console w).

(** [CACHE_DURATION = 24 * 60 * 60 * 1000], 24 hours in milliseconds. *)
Definition CACHE_DURATION : Z := 24 * 60 * 60 * 1000.

(** ** Asynchronous computations *)

Inductive Outcome (A : Type) : Type :=
| Return (a : A)
| Throw (e : JsError).
Arguments Return {A} a.
Arguments Throw {A} e.

Definition Async (A : Type) : Type := World -> Outcome A * World.

Definition ret {A} (a : A) : Async A := fun w => (Return a, w).

Definition throw {A} (e : JsError) : Async A := fun w => (Throw e, w).

Definition bind {A B} (m : Async A) (k : A -> Async B) : Async B :=
  fun w =>
    match m w with
    | (Return a, w') => k a w'
    | (Throw e, w') => (Throw e, w')
    end.

(** [try { m } catch (error) { h error }] *)
Definition try_catch {A} (m : Async A) (h : JsError -> Async A) : Async A :=
  fun w =>
    match m w with
    | (Return a, w') => (Return a, w')
    | (Throw e, w') => h e w'
    end.

Declare Scope async_scope.
Delimit Scope async_scope with async.
Notation "x <- c ;; k" := (bind c (fun x => k))
  (at level 100, c at next level, right associativity) : async_scope.
Notation "c ;;; k" := (bind c (fun _ => k))
  (at level 100, right associativity) : async_scope.
Open Scope async_scope.

(** ** The environment: [fs/promises], [JSON], [Date], [console] *)

Definition ENOENT : JsError := MkError "Error" "ENOENT: no such file or directory" None.
Definition EACCES : JsError := MkError "Error" "EACCES: permission denied" None.
Definition SyntaxError : JsError := MkError "SyntaxError" "Unexpected token in JSON" None.

(** [fs.access(CACHE_FILE)]: rejects when the file does not exist. *)
Definition fs_access : Async unit :=
  fun w => match file (disk w) with
           | Some _ => (Return tt, w)
           | None => (Throw ENOENT, w)
           end.

(** [fs.mkdir(dir, { recursive: true })] *)
Definition fs_mkdir : Async unit :=
  fun w => if writable (disk w) then (Return tt, w) else (Throw EACCES, w).

(** [fs.writeFile(CACHE_FILE, text)] *)
Definition fs_writeFile (text : FileText) : Async unit :=
  fun w => if writable (disk w) then (Return tt, set_file text w)
           else (Throw EACCES, w).

(** [fs.readFile(CACHE_FILE, 'utf-8')] *)
Definition fs_readFile : Async FileText :=
  fun w => match file (disk w) with
           | Some text => if readable (disk w) then (Return text, w)
                          else (Throw EACCES, w)
           | None => (Throw ENOENT, w)
           end.

Definition JSON_parse (text : FileText) : Async (gmap string CacheItem) :=
  match text with
  | Malformed _ => throw SyntaxError
  | Document cache => ret cache
  end.

Definition JSON_stringify (cache : gmap string CacheItem) : FileText :=
  Document cache.

Definition Date_now : Async Z := fun w => (Return (now w), w).

Definition console_log (line : string) : Async unit :=
  fun w => (Return tt, mkWorld (disk w) (now w) (console w ++ [line])).

(** ** The module *)

Definition initializeCache : Async unit :=
  try_catch fs_access
    (fun _ => fs_mkdir ;;; fs_writeFile (JSON_stringify ∅)).

Definition getFromCache (key : string) : Async JSON :=
  try_catch
    (text <- fs_readFile ;;
     cache <- JSON_parse text ;;
     match cache !! key with
     | Some cachedItem =>
         currentTime <- Date_now ;;
         if currentTime - timestamp cachedItem <? CACHE_DURATION
         then ret (data cachedItem)
         else ret JNull
     | None => ret JNull
     end)
    (fun _ => ret JNull).

(** [cache[key] = item], as [JSON.stringify] will see it.  The assignment
    sets the own property [key], with one exception: for the key
    ["__proto__"], unless the parsed object already has an own property of
    that name, it reaches the setter inherited from [Object.prototype] and
    changes the prototype of [cache]; no own property appears, and
    [JSON.stringify] writes own properties only. *)
Definition assign (key : string) (item : CacheItem)
    (cache : gmap string CacheItem) : gmap string CacheItem :=
  match cache !! key with
  | Some _ => <[key := item]> cache
  | None => if String.eqb key "__proto__" then cache
            else <[key := item]> cache
  end.

Definition saveToCache (key : string) (v : JSON) : Async bool :=
  try_catch
    (initializeCache ;;;
     fileData <- fs_readFile ;;
     cache <- JSON_parse fileData ;;
     stamp <- Date_now ;;
     fs_writeFile (JSON_stringify (assign key (mkItem stamp v) cache)) ;;;
     ret true)
    (fun _ => ret false).

(** The body of the [for (const key in cache)] loop of [clearExpiredCache]:
    the state is the cache object and [removedCount]. *)
Definition evict_key (currentTime : Z) (st : gmap string CacheItem * Z)
    (key : string) : gmap string CacheItem * Z :=
  match st.1 !! key with
  | Some item =>
      if CACHE_DURATION <=? currentTime - timestamp item
      then (delete key st.1, st.2 + 1)
      else st
  | None => st
  end.

Definition evict_loop (currentTime : Z) (cache : gmap string CacheItem)
    : gmap string CacheItem * Z :=
  foldl (evict_key currentTime) (cache, 0) (map_to_list cache).*1.

Definition clearExpiredCache : Async Z :=
  try_catch
    (initializeCache ;;;
     text <- fs_readFile ;;
     cache <- JSON_parse text ;;
     currentTime <- Date_now ;;
     let swept := evict_loop currentTime cache in
     (if 0 <? swept.2
      then fs_writeFile (JSON_stringify swept.1)
      else ret tt) ;;;
     ret swept.2)
    (fun _ => ret 0).

(** A fetch function is a black box supplied by the caller: it takes time,
    and returns a value or fails. *)
Definition FetchFn : Type := Async JSON.

Definition getCachedOrFetch (key : string) (fetchFn : FetchFn)
    (forceRefresh : bool) : Async JSON :=
  cached <- (if forceRefresh then ret JNull else getFromCache key) ;;
  fetched <- (if truthy cached then ret cached
              else try_catch
                     (fresh <- fetchFn ;;
                      saveToCache key fresh ;;;
                      ret fresh)
                     (fun fetchError =>
                        console_log "Fetch failed, attempting to use expired cache as fallback" ;;;
                        getFromCache key)) ;;
  if truthy fetched then ret fetched
  else throw (new_Error "Failed to fetch data and no cache available").

(** ** What the operations see of the medium *)

(** The document a read obtains, when [fs.readFile] and [JSON.parse] both
    succeed. *)
Definition stored (w : World) : option (gmap string CacheItem) :=
  match file (disk w) with
  | Some (Document cache) => if readable (disk w) then Some cache else None
  | _ => None
  end.

(** The mapping as the operations treat it: a missing, unreadable or
    malformed file holds no item. *)
Definition load (w : World) : gmap string CacheItem :=
  default ∅ (stored w).

(** The item the file holds for [key], whatever its age. *)
Definition entry (key : string) (w : World) : option CacheItem :=
  load w !! key.

(** The freshness test of [getFromCache]. *)
Definition fresh (currentTime : Z) (item : CacheItem) : bool :=
  currentTime - timestamp item <? CACHE_DURATION.

(** The expiry test of [clearExpiredCache]. *)
Definition expired (currentTime : Z) (item : CacheItem) : bool :=
  CACHE_DURATION <=? currentTime - timestamp item.

(** What a read of [key] returns in world [w]: the data of the item when
    it is fresh, [null] when it is stale or missing. *)
Definition fresh_data (key : string) (w : World) : JSON :=
  match entry key w with
  | Some item => if fresh (now w) item then data item else JNull
  | None => JNull
  end.

(** The fetch function is invoked: a forced refresh, or a read that gave
    nothing truthy. *)
Definition miss (key : string) (forceRefresh : bool) (w : World) : Prop :=
  forceRefresh = true \/ truthy (fresh_data key w) = false.

Definition no_data_error : JsError :=
  new_Error "Failed to fetch data and no cache available".

(** The medium can be read and written and its file, if any, parses. *)
Definition healthy_medium (w : World) : Prop :=
  readable (disk w) = true /\ writable (disk w) = true /\
  forall raw : string, file (disk w) <> Some (Malformed raw).

(** ** What the sweep keeps and what it removes *)

(** The items the sweep keeps and the items it removes. *)
Definition fresh_items (currentTime : Z) (cache : gmap string CacheItem)
    : gmap string CacheItem :=
  filter (λ kv, fresh currentTime kv.2 = true) cache.

Definition expired_items (currentTime : Z) (cache : gmap string CacheItem)
    : gmap string CacheItem :=
  filter (λ kv, expired currentTime kv.2 = true) cache.

(** The line [getCachedOrFetch] logs when the fetch fails. *)
Definition fallback_line : string :=
  "Fetch failed, attempting to use expired cache as fallback".

(** ** Sequences of operations and the passage of time *)

(** What a client does with the module, and time passing in between. *)
Inductive Op : Type :=
| CallInitialize
| CallGet (key : string)
| CallSave (key : string) (v : JSON)
| CallClearExpired
| CallGetOrFetch (key : string) (fetchFn : FetchFn) (forceRefresh : bool)
| Elapse (d : Z).

Definition step (w : World) (op : Op) : World :=
  match op with
  | CallInitialize => (initializeCache w).2
  | CallGet key => (getFromCache key w).2
  | CallSave key v => (saveToCache key v w).2
  | CallClearExpired => (clearExpiredCache w).2
  | CallGetOrFetch key fetchFn forceRefresh =>
      (getCachedOrFetch key fetchFn forceRefresh w).2
  | Elapse d => set_now (now w + d) w
  end.

Definition run (ops : list Op) (w : World) : World := foldl step w ops.

(** [w'] comes after [w]: the clock has not run backwards, and every item
    of [w'] is an item of [w] or was stamped no earlier than [now w]. *)
Definition follows (w w' : World) : Prop :=
  now w <= now w' /\
  forall (k : string) (item : CacheItem),
    entry k w' = Some item ->
    entry k w = Some item \/ now w <= timestamp item.

Definition advances {A} (m : Async A) : Prop :=
  forall w : World, follows w (m w).2.

(** The environment behaves: time only moves forward, and a fetch function
    neither rewinds the clock nor puts older items into the cache file. *)
Definition well_behaved (op : Op) : Prop :=
  match op with
  | Elapse d => 0 <= d
  | CallGetOrFetch _ fetchFn _ => advances fetchFn
  | _ => True
  end.

(** ** Sample worlds *)

(** A medium without faults holding [file], at time [t]. *)
Definition healthy (file : option FileText) (t : Z) : World :=
  mkWorld (mkDisk file true true 0) t [].

(** The payload [{a: 1}]. *)
Definition recipe : JSON := JObj [("a", JNum 1)].

(** No cache file yet, at time 0. *)
Definition no_file_world : World := healthy None 0.

(** A cache file that does not parse. *)
Definition corrupt_world : World := healthy (Some (Malformed "{oops")) 0.

(** ["x"] was cached at time 0 and a full [CACHE_DURATION] has passed. *)
Definition stale_world : World :=
  healthy (Some (Document {["x" := mkItem 0 recipe]})) CACHE_DURATION.

(** The world right after [saveToCache "x" {a: 1}] at time 0, the file
    missing before: one write created it, one stored the item. *)
Definition recipe_written : World :=
  mkWorld (mkDisk (Some (Document {["x" := mkItem 0 recipe]})) true true 2)
          0 [].


Definition network_down : JsError := MkError "Error" "network down" None.

(** * The favorites list (src/favorites.js)

    The favorites file holds a JSON array of recipes.  Its text is
    represented by the value [JSON.parse] returns for it ([Parsed]), or
    [Malformed] when [JSON.parse] throws.  An object's [fields] are its own
    properties, one per key. *)

Module Favorites.

(** The text of the favorites file, seen through [JSON.parse]. *)
Inductive FileText : Type :=
| Malformed (raw : string)
| Parsed (value : JSON).

(** The favorites file, the medium it lives on, and what [console.error]
    printed: a message and the error passed with it. *)
Record World : Type := mkWorld {
  file : option FileText;
  readable : bool;
  writable : bool;
  console : list (string * JsError)
}.

Definition set_file (t : FileText) (w : World) : World :=
  mkWorld (Some t) (readable w) (writable w) (console w).

Definition Async (A : Type) : Type := World -> Outcome A * World.

Definition ret {A} (a : A) : Async A := fun w => (Return a, w).

Definition throw {A} (e : JsError) : Async A := fun w => (Throw e, w).

Definition bind {A B} (m : Async A) (k : A -> Async B) : Async B :=
  fun w =>
    match m w with
    | (Return a, w') => k a w'
    | (Throw e, w') => (Throw e, w')
    end.

(** [try { m } catch (error) { h error }] *)
Definition try_catch {A} (m : Async A) (h : JsError -> Async A) : Async A :=
  fun w =>
    match m w with
    | (Return a, w') => (Return a, w')
    | (Throw e, w') => h e w'
    end.

Declare Scope fav_scope.
Delimit Scope fav_scope with fav.
Notation "x <- c ;; k" := (bind c (fun x => k))
  (at level 100, c at next level, right associativity) : fav_scope.
Notation "c ;;; k" := (bind c (fun _ => k))
  (at level 100, right associativity) : fav_scope.
#[local] Open Scope fav_scope.

Definition TypeError : JsError :=
  MkError "TypeError" "Cannot read properties of null, or not a function" None.

Definition fs_access : Async unit :=
  fun w => match file w with
           | Some _ => (Return tt, w)
           | None => (Throw ENOENT, w)
           end.

Definition fs_mkdir : Async unit :=
  fun w => if writable w then (Return tt, w) else (Throw EACCES, w).

Definition fs_writeFile (text : FileText) : Async unit :=
  fun w => if writable w then (Return tt, set_file text w)
           else (Throw EACCES, w).

Definition fs_readFile : Async FileText :=
  fun w => match file w with
           | Some text => if readable w then (Return text, w)
                          else (Throw EACCES, w)
           | None => (Throw ENOENT, w)
           end.

Definition JSON_parse (text : FileText) : Async JSON :=
  match text with
  | Malformed _ => throw SyntaxError
  | Parsed value => ret value
  end.

Definition JSON_stringify (value : JSON) : FileText := Parsed value.

(** [console.error(message, error)] *)
Definition console_error (message : string) (error : JsError) : Async unit :=
  fun w => (Return tt,
            mkWorld (file w) (readable w) (writable w)
                    (console w ++ [(message, error)])).

(** The own property [name] of an object; [None] is [undefined]. *)
Fixpoint own_property (name : string) (fields : list (string * JSON))
    : option JSON :=
  match fields with
  | [] => None
  | (k, v) :: rest => if String.eqb k name then Some v
                      else own_property name rest
  end.

(** [v.idMeal]: a [TypeError] on [null], the property on an object,
    [undefined] on every other value. *)
Definition get_idMeal (v : JSON) : Async (option JSON) :=
  match v with
  | JNull => throw TypeError
  | JObj fields => ret (own_property "idMeal" fields)
  | _ => ret None
  end.

(** [a === b] between a value read from a parsed favorite and another
    value: primitives compare by content, [undefined] equals [undefined],
    and an array or object parsed from the file is identical to nothing
    else. *)
Definition strict_eq (a b : option JSON) : bool :=
  match a, b with
  | None, None => true
  | Some JNull, Some JNull => true
  | Some (JBool x), Some (JBool y) => Bool.eqb x y
  | Some (JNum x), Some (JNum y) => x =? y
  | Some (JStr x), Some (JStr y) => String.eqb x y
  | _, _ => false
  end.

(** [favorites.some], [.filter], [.find] and [.length] exist on arrays
    only: on any other parsed value the call throws a [TypeError]. *)
Definition as_array (value : JSON) : Async (list JSON) :=
  match value with
  | JArr items => ret items
  | _ => throw TypeError
  end.

(** [items.some(callback)] *)
Fixpoint array_some (callback : JSON -> Async bool) (items : list JSON)
    : Async bool :=
  match items with
  | [] => ret false
  | x :: rest =>
      hit <- callback x ;;
      if hit then ret true else array_some callback rest
  end.

(** [items.filter(callback)] *)
Fixpoint array_filter (callback : JSON -> Async bool) (items : list JSON)
    : Async (list JSON) :=
  match items with
  | [] => ret []
  | x :: rest =>
      keep <- callback x ;;
      kept <- array_filter callback rest ;;
      ret (if keep then x :: kept else kept)
  end.

(** [items.find(callback)]; [None] is [undefined]. *)
Fixpoint array_find (callback : JSON -> Async bool) (items : list JSON)
    : Async (option JSON) :=
  match items with
  | [] => ret None
  | x :: rest =>
      hit <- callback x ;;
      if hit then ret (Some x) else array_find callback rest
  end.

Definition initializeFavorites : Async unit :=
  try_catch fs_access
    (fun _ =>
       try_catch
         (fs_mkdir ;;; fs_writeFile (JSON_stringify (JArr [])))
         (fun e => console_error "Error creating favorites file:" e ;;;
                   throw e)).

Definition getFavorites : Async JSON :=
  try_catch
    (initializeFavorites ;;;
     text <- fs_readFile ;;
     JSON_parse text)
    (fun error =>
       console_error "Error reading favorites file:" error ;;;
       ret (JArr [])).

Definition addFavorite (recipe : JSON) : Async bool :=
  try_catch
    (initializeFavorites ;;;
     favorites <- getFavorites ;;
     items <- as_array favorites ;;
     exists_ <- array_some
                  (fun favorite =>
                     theirs <- get_idMeal favorite ;;
                     ours <- get_idMeal recipe ;;
                     ret (strict_eq theirs ours))
                  items ;;
     if exists_ then ret false
     else
       fs_writeFile (JSON_stringify (JArr (items ++ [recipe]))) ;;;
       ret true)
    (fun error =>
       console_error "Error adding favorite recipe:" error ;;;
       ret false).

Definition removeFavorite (recipeId : JSON) : Async bool :=
  try_catch
    (initializeFavorites ;;;
     favorites <- getFavorites ;;
     items <- as_array favorites ;;
     let initialLength := length items in
     updatedFavorites <- array_filter
                           (fun favorite =>
                              theirs <- get_idMeal favorite ;;
                              ret (negb (strict_eq theirs (Some recipeId))))
                           items ;;
     if Nat.eqb (length updatedFavorites) initialLength then ret false
     else
       fs_writeFile (JSON_stringify (JArr updatedFavorites)) ;;;
       ret true)
    (fun error =>
       console_error "Error removing favorite recipe:" error ;;;
       ret false).

Definition isInFavorites (recipeId : JSON) : Async bool :=
  try_catch
    (favorites <- getFavorites ;;
     items <- as_array favorites ;;
     array_some
       (fun favorite =>
          theirs <- get_idMeal favorite ;;
          ret (strict_eq theirs (Some recipeId)))
       items)
    (fun error =>
       console_error "Error checking if recipe is in favorites:" error ;;;
       ret false).

(** [favorites.find(...) || null] *)
Definition getFavoriteById (recipeId : JSON) : Async JSON :=
  try_catch
    (favorites <- getFavorites ;;
     items <- as_array favorites ;;
     found <- array_find
                (fun favorite =>
                   theirs <- get_idMeal favorite ;;
                   ret (strict_eq theirs (Some recipeId)))
                items ;;
     ret match found with
         | Some favorite => if truthy favorite then favorite else JNull
         | None => JNull
         end)
    (fun error =>
       console_error "Error getting favorite recipe by ID:" error ;;;
       ret JNull).

(** ** Reading the list without effects *)

(** The array a read obtains, when the file can be read and parses to an
    array. *)
Definition favorites_of (w : World) : option (list JSON) :=
  match file w with
  | Some (Parsed (JArr items)) => if readable w then Some items else None
  | _ => None
  end.

(** [v.idMeal] for a value that is not [null]. *)
Definition idMeal_of (v : JSON) : option JSON :=
  match v with
  | JObj fields => own_property "idMeal" fields
  | _ => None
  end.

(** Some favorite of the list has an [idMeal] strictly equal to [id]. *)
Definition has_id (id : option JSON) (items : list JSON) : bool :=
  existsb (fun favorite => strict_eq (idMeal_of favorite) id) items.

(** The favorites whose [idMeal] differs from [id]. *)
Definition without_id (id : JSON) (items : list JSON) : list JSON :=
  List.filter (fun favorite => negb (strict_eq (idMeal_of favorite) (Some id)))
    items.

(** No [null] sits in the array. *)
Definition no_null (items : list JSON) : Prop :=
  Forall (fun favorite => favorite <> JNull) items.

(** No two favorites of the list have strictly equal [idMeal]s. *)
Fixpoint unique_ids (items : list JSON) : Prop :=
  match items with
  | [] => True
  | x :: rest => has_id (idMeal_of x) rest = false /\ unique_ids rest
  end.

(** A medium without faults. *)
Definition healthy (file : option FileText) : World :=
  mkWorld file true true [].

(** Values that [===] compares by content. *)
Definition is_primitive (v : JSON) : bool :=
  match v with
  | JArr _ | JObj _ => false
  | _ => true
  end.

(** The read of the file fails: it cannot be read, or does not parse. *)
Definition unreadable (w : World) : Prop :=
  readable w = false \/ exists raw : string, file w = Some (Malformed raw).

(** Two recipes, and a list holding the first. *)
Definition soup : JSON :=
  JObj [("idMeal", JStr "52772"); ("strMeal", JStr "Soup")].

Definition pie : JSON :=
  JObj [("idMeal", JStr "52855"); ("strMeal", JStr "Pie")].

Definition soup_saved : World := healthy (Some (Parsed (JArr [soup]))).

End Favorites.

(** * Properties *)

(** ** Equations of the operations *)

Lemma expired_not_fresh (t : Z) (item : CacheItem) :
  expired t item = negb (fresh t item).
Proof.
  unfold expired, fresh.
  destruct (Z.ltb_spec (t - timestamp item) CACHE_DURATION);
    destruct (Z.leb_spec CACHE_DURATION (t - timestamp item)); simpl; lia.
Qed.

Lemma stored_load (w : World) (cache : gmap string CacheItem) :
  stored w = Some cache -> load w = cache.
Proof. unfold load. now intros ->. Qed.

Lemma initializeCache_present (w : World) :
  is_Some (file (disk w)) -> initializeCache w = (Return tt, w).
Proof.
  intros [text Htext]. unfold initializeCache, try_catch, fs_access.
  now rewrite Htext.
Qed.

Lemma initializeCache_absent (w : World) :
  file (disk w) = None ->
  initializeCache w =
    if writable (disk w)
    then (Return tt, set_file (Document ∅) w)
    else (Throw EACCES, w).
Proof.
  intros Hnone.
  unfold initializeCache, try_catch, fs_access, bind, fs_mkdir, fs_writeFile.
  rewrite Hnone. destruct (writable (disk w)) eqn:Hwr; simpl.
  - now rewrite Hwr.
  - reflexivity.
Qed.

(** [getFromCache] never throws and never changes the world; it returns the
    data of a fresh item and [null] otherwise. *)
Lemma getFromCache_eq (key : string) (w : World) :
  getFromCache key w = (Return (fresh_data key w), w).
Proof.
  unfold getFromCache, fresh_data, entry, load, stored, try_catch, bind,
    fs_readFile.
  destruct (file (disk w)) as [[raw|cache]|]; simpl;
    destruct (readable (disk w)); simpl; try reflexivity.
  unfold ret, Date_now, fresh.
  destruct (cache !! key) as [item|]; simpl; [|reflexivity].
  now destruct (now w - timestamp item <? CACHE_DURATION).
Qed.

Lemma getFromCache_world (key : string) (w : World) :
  (getFromCache key w).2 = w.
Proof. now rewrite getFromCache_eq. Qed.

(** The assignment is a plain insertion for every key but ["__proto__"]. *)
Lemma assign_plain (key : string) (item : CacheItem)
    (cache : gmap string CacheItem) :
  key <> "__proto__" -> assign key item cache = <[key := item]> cache.
Proof.
  intros Hkey. unfold assign.
  destruct (cache !! key); [reflexivity|].
  destruct (String.eqb_spec key "__proto__"); [contradiction|reflexivity].
Qed.

Lemma assign_lookup_ne (key other : string) (item : CacheItem)
    (cache : gmap string CacheItem) :
  other <> key -> assign key item cache !! other = cache !! other.
Proof.
  intros Hne. unfold assign.
  destruct (cache !! key); [now rewrite lookup_insert_ne by congruence|].
  destruct (String.eqb key "__proto__"); [reflexivity|].
  now rewrite lookup_insert_ne by congruence.
Qed.

(** Under the key assigned, the object holds the item assigned or
    nothing. *)
Lemma assign_lookup_key (key : string) (item found : CacheItem)
    (cache : gmap string CacheItem) :
  assign key item cache !! key = Some found -> found = item.
Proof.
  unfold assign. destruct (cache !! key) eqn:Hk.
  - rewrite lookup_insert_eq. congruence.
  - destruct (String.eqb key "__proto__").
    + rewrite Hk. discriminate.
    + rewrite lookup_insert_eq. congruence.
Qed.

Lemma assign_lookup_inv (key k : string) (item found : CacheItem)
    (cache : gmap string CacheItem) :
  assign key item cache !! k = Some found ->
  cache !! k = Some found \/ (k = key /\ found = item).
Proof.
  destruct (decide (k = key)) as [->|Hne].
  - intros Hk. right. split; [reflexivity|]. now apply assign_lookup_key in Hk.
  - rewrite assign_lookup_ne by assumption. auto.
Qed.

(** [saveToCache] on a readable document of a writable medium. *)
Lemma saveToCache_stored (key : string) (v : JSON) (w : World)
    (cache : gmap string CacheItem) :
  stored w = Some cache ->
  saveToCache key v w =
    if writable (disk w)
    then (Return true,
          set_file (Document (assign key (mkItem (now w) v) cache)) w)
    else (Return false, w).
Proof.
  unfold stored. intros Hst.
  destruct (file (disk w)) as [[raw|c]|] eqn:Hfile; try discriminate.
  destruct (readable (disk w)) eqn:Hrd; try discriminate.
  injection Hst as ->.
  unfold saveToCache, try_catch, bind.
  rewrite initializeCache_present by (rewrite Hfile; eauto).
  unfold fs_readFile. rewrite Hfile, Hrd. simpl.
  unfold fs_writeFile, ret. now destruct (writable (disk w)).
Qed.

(** [saveToCache] when the file does not exist yet. *)
Lemma saveToCache_absent (key : string) (v : JSON) (w : World) :
  file (disk w) = None ->
  saveToCache key v w =
    if writable (disk w)
    then if readable (disk w)
         then (Return true,
               set_file (Document (assign key (mkItem (now w) v) ∅))
                 (set_file (Document ∅) w))
         else (Return false, set_file (Document ∅) w)
    else (Return false, w).
Proof.
  intros Hnone. unfold saveToCache, try_catch, bind.
  rewrite initializeCache_absent by assumption.
  destruct (writable (disk w)) eqn:Hwr; [|reflexivity].
  unfold fs_readFile. simpl.
  destruct (readable (disk w)) eqn:Hrd; [|reflexivity].
  simpl. unfold fs_writeFile. simpl. rewrite Hwr. reflexivity.
Qed.

(** [saveToCache] on a file that does not parse, or cannot be read. *)
Lemma saveToCache_unreadable (key : string) (v : JSON) (w : World) :
  is_Some (file (disk w)) -> stored w = None ->
  saveToCache key v w = (Return false, w).
Proof.
  intros Hsome Hst. unfold saveToCache, try_catch, bind.
  rewrite initializeCache_present by assumption.
  destruct Hsome as [text Hfile]. unfold stored in Hst.
  unfold fs_readFile. rewrite Hfile in *.
  destruct (readable (disk w)); [|reflexivity].
  destruct text as [raw|cache]; [reflexivity|discriminate].
Qed.

(** [saveToCache] catches everything: it returns a boolean in every world. *)
Lemma saveToCache_returns (key : string) (v : JSON) (w : World) :
  exists (b : bool) (w' : World), saveToCache key v w = (Return b, w').
Proof.
  destruct (file (disk w)) as [text|] eqn:Hfile.
  - destruct (stored w) as [cache|] eqn:Hst.
    + rewrite (saveToCache_stored _ _ _ _ Hst).
      destruct (writable (disk w)); eauto.
    + rewrite saveToCache_unreadable; eauto.
  - rewrite saveToCache_absent by assumption.
    destruct (writable (disk w)), (readable (disk w)); eauto.
Qed.

(** ** The eviction loop *)

(** A key outside the keys visited keeps its item; a visited key keeps it
    exactly when the item has not expired. *)
Lemma evict_fold_lookup (t : Z) (keys : list string) :
  forall (st : gmap string CacheItem * Z) (k : string),
    (foldl (evict_key t) st keys).1 !! k =
      match st.1 !! k with
      | Some item =>
          if bool_decide (k ∈ keys) && expired t item then None else Some item
      | None => None
      end.
Proof.
  induction keys as [|a keys IH]; intros st k; simpl.
  - now destruct (st.1 !! k).
  - rewrite IH. unfold evict_key.
    destruct (decide (k = a)) as [->|Hne].
    + rewrite (bool_decide_eq_true_2 (a ∈ a :: keys)) by apply list_elem_of_here.
      destruct (st.1 !! a) as [item|] eqn:Ha; simpl.
      * fold (expired t item).
        destruct (expired t item) eqn:Hex; simpl.
        -- now rewrite lookup_delete_eq.
        -- rewrite Ha, Hex. now rewrite andb_false_r.
      * now rewrite Ha.
    + assert (Hmem : bool_decide (k ∈ a :: keys) = bool_decide (k ∈ keys)).
      { apply bool_decide_ext. rewrite elem_of_cons. tauto. }
      rewrite Hmem.
      destruct (st.1 !! a) as [item|] eqn:Ha; simpl; [|reflexivity].
      fold (expired t item).
      destruct (expired t item); simpl; [|reflexivity].
      now rewrite lookup_delete_ne by congruence.
Qed.

(** [removedCount] grows by one for each item deleted. *)
Lemma evict_fold_count (t : Z) (keys : list string) :
  forall st : gmap string CacheItem * Z,
    (foldl (evict_key t) st keys).2
      + Z.of_nat (size (foldl (evict_key t) st keys).1)
    = st.2 + Z.of_nat (size st.1).
Proof.
  induction keys as [|a keys IH]; intros st; simpl; [reflexivity|].
  rewrite IH. unfold evict_key.
  destruct (st.1 !! a) as [item|] eqn:Ha; [|reflexivity].
  destruct (CACHE_DURATION <=? t - timestamp item); [|reflexivity].
  simpl. rewrite map_size_delete, Ha.
  assert (size st.1 ≠ 0%nat).
  { apply map_size_ne_0_lookup. eauto. }
  lia.
Qed.

Lemma evict_loop_cache (t : Z) (cache : gmap string CacheItem) :
  (evict_loop t cache).1 = fresh_items t cache.
Proof.
  apply map_eq. intros k. unfold evict_loop, fresh_items.
  rewrite evict_fold_lookup, map_lookup_filter. simpl.
  destruct (cache !! k) as [item|] eqn:Hk; simpl; [|reflexivity].
  rewrite bool_decide_eq_true_2.
  2:{ apply list_elem_of_fmap. exists (k, item). split; [reflexivity|].
      now apply elem_of_map_to_list. }
  rewrite expired_not_fresh. simpl.
  now destruct (fresh t item).
Qed.

Lemma size_fresh_expired (t : Z) (cache : gmap string CacheItem) :
  (size (fresh_items t cache) + size (expired_items t cache))%nat = size cache.
Proof.
  unfold fresh_items, expired_items.
  rewrite <- (map_filter_union_complement
                (λ kv : string * CacheItem, fresh t kv.2 = true) cache) at 3.
  rewrite map_size_disj_union by apply map_disjoint_filter_complement.
  f_equal. f_equal. apply map_filter_ext. intros k item _. simpl.
  rewrite expired_not_fresh. destruct (fresh t item); simpl; split; congruence.
Qed.

Lemma evict_loop_count (t : Z) (cache : gmap string CacheItem) :
  (evict_loop t cache).2 = Z.of_nat (size (expired_items t cache)).
Proof.
  pose proof (evict_fold_count t (map_to_list cache).*1 (cache, 0)) as Hc.
  fold (evict_loop t cache) in Hc. rewrite evict_loop_cache in Hc.
  pose proof (size_fresh_expired t cache). simpl in Hc. lia.
Qed.

Lemma fresh_items_lookup (t : Z) (cache : gmap string CacheItem)
    (k : string) (item : CacheItem) :
  fresh_items t cache !! k = Some item <->
  cache !! k = Some item /\ fresh t item = true.
Proof. unfold fresh_items. now rewrite map_lookup_filter_Some. Qed.

Lemma expired_items_lookup (t : Z) (cache : gmap string CacheItem)
    (k : string) (item : CacheItem) :
  expired_items t cache !! k = Some item <->
  cache !! k = Some item /\ expired t item = true.
Proof. unfold expired_items. now rewrite map_lookup_filter_Some. Qed.


Lemma expired_spec (t : Z) (item : CacheItem) :
  expired t item = true <-> CACHE_DURATION <= t - timestamp item.
Proof. unfold expired. apply Z.leb_le. Qed.

Lemma fresh_spec (t : Z) (item : CacheItem) :
  fresh t item = true <-> t - timestamp item < CACHE_DURATION.
Proof. unfold fresh. apply Z.ltb_lt. Qed.

Lemma evict_loop_empty (t : Z) : evict_loop t ∅ = (∅, 0).
Proof. unfold evict_loop. now rewrite map_to_list_empty. Qed.

(** [clearExpiredCache] on a readable document. *)
Lemma clearExpiredCache_stored (w : World) (cache : gmap string CacheItem) :
  stored w = Some cache ->
  clearExpiredCache w =
    let removedCount := Z.of_nat (size (expired_items (now w) cache)) in
    if 0 <? removedCount
    then if writable (disk w)
         then (Return removedCount,
               set_file (Document (fresh_items (now w) cache)) w)
         else (Return 0, w)
    else (Return 0, w).
Proof.
  unfold stored. intros Hst.
  destruct (file (disk w)) as [[raw|c]|] eqn:Hfile; try discriminate.
  destruct (readable (disk w)) eqn:Hrd; try discriminate.
  injection Hst as ->.
  unfold clearExpiredCache, try_catch, bind.
  rewrite initializeCache_present by (rewrite Hfile; eauto).
  unfold fs_readFile. rewrite Hfile, Hrd. simpl.
  rewrite evict_loop_count, evict_loop_cache.
  destruct (0 <? Z.of_nat (size (expired_items (now w) cache))) eqn:Hpos.
  - unfold fs_writeFile, JSON_stringify.
    now destruct (writable (disk w)).
  - simpl. apply Z.ltb_ge in Hpos. do 2 f_equal. lia.
Qed.

(** [clearExpiredCache] when the file does not exist: [initializeCache]
    creates it, nothing is swept. *)
Lemma clearExpiredCache_absent (w : World) :
  file (disk w) = None ->
  clearExpiredCache w = (Return 0, (initializeCache w).2).
Proof.
  intros Hnone. unfold clearExpiredCache, try_catch, bind.
  rewrite initializeCache_absent by assumption.
  destruct (writable (disk w)) eqn:Hwr; [|reflexivity].
  unfold fs_readFile. simpl.
  destruct (readable (disk w)) eqn:Hrd; [|reflexivity].
  simpl. now rewrite evict_loop_empty.
Qed.

(** [clearExpiredCache] on a file that does not parse, or cannot be read. *)
Lemma clearExpiredCache_unreadable (w : World) :
  is_Some (file (disk w)) -> stored w = None ->
  clearExpiredCache w = (Return 0, w).
Proof.
  intros Hsome Hst. unfold clearExpiredCache, try_catch, bind.
  rewrite initializeCache_present by assumption.
  destruct Hsome as [text Hfile]. unfold stored in Hst.
  unfold fs_readFile. rewrite Hfile in *.
  destruct (readable (disk w)); [|reflexivity].
  destruct text as [raw|cache]; [reflexivity|discriminate].
Qed.

Lemma stored_set_file (cache : gmap string CacheItem) (w : World) :
  stored (set_file (Document cache) w) =
    if readable (disk w) then Some cache else None.
Proof. reflexivity. Qed.

Lemma stored_absent (w : World) : file (disk w) = None -> stored w = None.
Proof. unfold stored. now intros ->. Qed.

Lemma stored_disk (w w' : World) : disk w' = disk w -> stored w' = stored w.
Proof. unfold stored. now intros ->. Qed.

Lemma readable_initializeCache (w : World) :
  readable (disk (initializeCache w).2) = readable (disk w).
Proof.
  destruct (file (disk w)) as [text|] eqn:Hfile.
  - now rewrite initializeCache_present by eauto.
  - rewrite initializeCache_absent by assumption.
    now destruct (writable (disk w)).
Qed.

(** A successful [saveToCache] assigned the item, stamped with the current
    time, in the mapping it had read, and wrote the result. *)
Lemma saveToCache_true (key : string) (v : JSON) (w w' : World) :
  saveToCache key v w = (Return true, w') ->
  stored w' = Some (assign key (mkItem (now w) v) (load w))
  /\ now w' = now w
  /\ readable (disk w) = true /\ writable (disk w) = true.
Proof.
  intros Hsave.
  destruct (file (disk w)) as [text|] eqn:Hfile.
  - destruct (stored w) as [cache|] eqn:Hst.
    + rewrite (saveToCache_stored _ _ _ _ Hst) in Hsave.
      rewrite (stored_load _ _ Hst).
      unfold stored in Hst. rewrite Hfile in Hst.
      destruct text; [discriminate|].
      destruct (readable (disk w)) eqn:Hrd; [|discriminate].
      destruct (writable (disk w)); [|discriminate].
      injection Hsave as <-. now rewrite stored_set_file, Hrd.
    + rewrite saveToCache_unreadable in Hsave by eauto. discriminate.
  - rewrite saveToCache_absent in Hsave by assumption.
    unfold load. rewrite (stored_absent _ Hfile). simpl.
    destruct (writable (disk w)); [|discriminate].
    destruct (readable (disk w)) eqn:Hrd; [|discriminate].
    injection Hsave as <-. rewrite stored_set_file. simpl. now rewrite Hrd.
Qed.

(** Whatever [saveToCache] returns, the mapping afterwards is the mapping
    before, with the assignment made when it returned [true]. *)
Lemma saveToCache_load (key : string) (v : JSON) (w : World) :
  load (saveToCache key v w).2 = load w \/
  load (saveToCache key v w).2 = assign key (mkItem (now w) v) (load w).
Proof.
  destruct (saveToCache key v w) as [[[|]|e] w'] eqn:Hsave; simpl.
  - right. apply saveToCache_true in Hsave as (Hst & _).
    unfold load at 1. now rewrite Hst.
  - left.
    destruct (file (disk w)) as [text|] eqn:Hfile.
    + destruct (stored w) as [cache|] eqn:Hst.
      * rewrite (saveToCache_stored _ _ _ _ Hst) in Hsave.
        destruct (writable (disk w)); [discriminate|]. now injection Hsave as <-.
      * rewrite saveToCache_unreadable in Hsave by eauto.
        now injection Hsave as <-.
    + rewrite saveToCache_absent in Hsave by assumption.
      destruct (writable (disk w)); [|now injection Hsave as <-].
      destruct (readable (disk w)) eqn:Hrd; [discriminate|].
      injection Hsave as <-. unfold load.
      now rewrite stored_set_file, Hrd, (stored_absent _ Hfile).
  - destruct (saveToCache_returns key v w) as (b & w'' & Hret). congruence.
Qed.

Lemma saveToCache_healthy (key : string) (v : JSON) (w : World) :
  healthy_medium w ->
  saveToCache key v w =
    (Return true,
     set_file (Document (assign key (mkItem (now w) v) (load w)))
       (initializeCache w).2).
Proof.
  intros (Hrd & Hwr & Hparse).
  destruct (file (disk w)) as [[raw|cache]|] eqn:Hfile.
  - now destruct (Hparse raw).
  - assert (Hst : stored w = Some cache) by (unfold stored; now rewrite Hfile, Hrd).
    rewrite (saveToCache_stored _ _ _ _ Hst), Hwr.
    rewrite (stored_load _ _ Hst).
    now rewrite initializeCache_present by (rewrite Hfile; eauto).
  - rewrite saveToCache_absent, Hwr, Hrd by assumption.
    unfold load. rewrite (stored_absent _ Hfile). simpl.
    now rewrite initializeCache_absent, Hwr by assumption.
Qed.

(** [saveToCache] returns [true] exactly on a healthy medium: any storage
    or parse error makes it return [false]. *)
Lemma saveToCache_true_iff (key : string) (v : JSON) (w : World) :
  (saveToCache key v w).1 = Return true <-> healthy_medium w.
Proof.
  split.
  - intros Hret.
    destruct (saveToCache key v w) as [r w'] eqn:Hsave. simpl in Hret.
    subst r. pose proof (saveToCache_true _ _ _ _ Hsave) as (_ & _ & Hrd & Hwr).
    repeat split; try assumption.
    intros raw Hfile.
    rewrite saveToCache_unreadable in Hsave;
      [discriminate|rewrite Hfile; eauto|unfold stored; now rewrite Hfile].
  - intros Hh. now rewrite saveToCache_healthy.
Qed.

Lemma entry_set_file (key : string) (cache : gmap string CacheItem)
    (w : World) :
  readable (disk w) = true ->
  entry key (set_file (Document cache) w) = cache !! key.
Proof.
  intros Hrd. unfold entry, load. now rewrite stored_set_file, Hrd.
Qed.

(** ** Equations of [getCachedOrFetch] *)

(** Fast path: a fresh truthy item is returned, the fetch function is not
    called. *)
Lemma getCachedOrFetch_hit (key : string) (fetchFn : FetchFn) (w : World) :
  truthy (fresh_data key w) = true ->
  getCachedOrFetch key fetchFn false w = (Return (fresh_data key w), w).
Proof.
  intros Htr. unfold getCachedOrFetch, bind.
  rewrite getFromCache_eq, Htr. unfold ret. now rewrite Htr.
Qed.

(** The fetch succeeds: the value goes to [saveToCache], whose result is
    dropped, and then through the final truthiness test. *)
Lemma getCachedOrFetch_fetched (key : string) (fetchFn : FetchFn)
    (forceRefresh : bool) (w w1 : World) (v : JSON) :
  miss key forceRefresh w ->
  fetchFn w = (Return v, w1) ->
  getCachedOrFetch key fetchFn forceRefresh w =
    (if truthy v then Return v else Throw no_data_error,
     (saveToCache key v w1).2).
Proof.
  intros Hmiss Hfetch.
  destruct (saveToCache_returns key v w1) as (b & w2 & Hsave).
  unfold getCachedOrFetch, bind, try_catch.
  assert (Hfirst :
    (if forceRefresh then ret JNull else getFromCache key) w
    = (Return (if forceRefresh then JNull else fresh_data key w), w)).
  { destruct forceRefresh; [reflexivity|apply getFromCache_eq]. }
  rewrite Hfirst.
  assert (Hfalsy :
    truthy (if forceRefresh then JNull else fresh_data key w) = false).
  { destruct Hmiss as [->|Hm]; [reflexivity|].
    now destruct forceRefresh. }
  rewrite Hfalsy, Hfetch, Hsave. simpl.
  now destruct (truthy v).
Qed.

(** The fetch fails: a line is logged and the cache is read once more, by
    the same [getFromCache]. *)
Lemma getCachedOrFetch_failed (key : string) (fetchFn : FetchFn)
    (forceRefresh : bool) (w w1 : World) (e : JsError) :
  miss key forceRefresh w ->
  fetchFn w = (Throw e, w1) ->
  getCachedOrFetch key fetchFn forceRefresh w =
    let w2 := mkWorld (disk w1) (now w1) (console w1 ++ [fallback_line]) in
    (if truthy (fresh_data key w2) then Return (fresh_data key w2)
     else Throw no_data_error, w2).
Proof.
  intros Hmiss Hfetch.
  unfold getCachedOrFetch, bind, try_catch.
  assert (Hfirst :
    (if forceRefresh then ret JNull else getFromCache key) w
    = (Return (if forceRefresh then JNull else fresh_data key w), w)).
  { destruct forceRefresh; [reflexivity|apply getFromCache_eq]. }
  rewrite Hfirst.
  assert (Hfalsy :
    truthy (if forceRefresh then JNull else fresh_data key w) = false).
  { destruct Hmiss as [->|Hm]; [reflexivity|].
    now destruct forceRefresh. }
  rewrite Hfalsy, Hfetch. unfold console_log. fold fallback_line.
  rewrite getFromCache_eq. simpl.
  now destruct (truthy (fresh_data key _)).
Qed.

(** ** Worlds that follow one another *)

Lemma follows_refl (w : World) : follows w w.
Proof. split; [lia|auto]. Qed.

Lemma follows_trans (w1 w2 w3 : World) :
  follows w1 w2 -> follows w2 w3 -> follows w1 w3.
Proof.
  intros [Hn12 He12] [Hn23 He23]. split; [lia|].
  intros k item H3. destruct (He23 _ _ H3) as [H2|Hts].
  - apply He12, H2.
  - right. lia.
Qed.

Lemma follows_same_load (w w' : World) :
  now w <= now w' -> load w' = load w -> follows w w'.
Proof.
  intros Hn Hl. split; [assumption|].
  intros k item. unfold entry. rewrite Hl. auto.
Qed.

Lemma advances_ret {A} (a : A) : advances (ret a).
Proof. intros w. apply follows_refl. Qed.

Lemma advances_throw {A} (e : JsError) : advances (@throw A e).
Proof. intros w. apply follows_refl. Qed.

Lemma advances_bind {A B} (m : Async A) (k : A -> Async B) :
  advances m -> (forall a, advances (k a)) -> advances (bind m k).
Proof.
  intros Hm Hk w. unfold bind. specialize (Hm w).
  destruct (m w) as [[a|e] w'] eqn:Hmw; simpl in Hm; [|exact Hm].
  eapply follows_trans; [exact Hm|apply Hk].
Qed.

Lemma advances_try_catch {A} (m : Async A) (h : JsError -> Async A) :
  advances m -> (forall e, advances (h e)) -> advances (try_catch m h).
Proof.
  intros Hm Hh w. unfold try_catch. specialize (Hm w).
  destruct (m w) as [[a|e] w'] eqn:Hmw; simpl in Hm; [exact Hm|].
  eapply follows_trans; [exact Hm|apply Hh].
Qed.

Lemma advances_console_log (line : string) : advances (console_log line).
Proof. intros w. now apply follows_same_load. Qed.

Lemma advances_getFromCache (key : string) : advances (getFromCache key).
Proof. intros w. rewrite getFromCache_world. apply follows_refl. Qed.

Lemma load_initializeCache (w : World) :
  load (initializeCache w).2 = load w /\ now (initializeCache w).2 = now w.
Proof.
  destruct (file (disk w)) as [text|] eqn:Hfile.
  - rewrite initializeCache_present by eauto. now split.
  - rewrite initializeCache_absent by assumption.
    destruct (writable (disk w)); simpl; [|now split].
    split; [|reflexivity].
    unfold load. rewrite stored_set_file, (stored_absent _ Hfile).
    now destruct (readable (disk w)).
Qed.

Lemma advances_initializeCache : advances initializeCache.
Proof.
  intros w. destruct (load_initializeCache w) as [Hl Hn].
  apply follows_same_load; [lia|assumption].
Qed.

Lemma now_saveToCache (key : string) (v : JSON) (w : World) :
  now (saveToCache key v w).2 = now w.
Proof.
  destruct (file (disk w)) as [text|] eqn:Hfile.
  - destruct (stored w) as [cache|] eqn:Hst.
    + rewrite (saveToCache_stored _ _ _ _ Hst).
      now destruct (writable (disk w)).
    + now rewrite saveToCache_unreadable by eauto.
  - rewrite saveToCache_absent by assumption.
    now destruct (writable (disk w)), (readable (disk w)).
Qed.

Lemma advances_saveToCache (key : string) (v : JSON) :
  advances (saveToCache key v).
Proof.
  intros w. split; [rewrite now_saveToCache; lia|].
  intros k item. unfold entry.
  destruct (saveToCache_load key v w) as [Hl|Hl]; rewrite Hl; [auto|].
  intros Hk. destruct (assign_lookup_inv _ _ _ _ _ Hk) as [Hold|[_ ->]].
  - now left.
  - right. simpl. lia.
Qed.

Lemma load_clearExpiredCache (w : World) :
  now (clearExpiredCache w).2 = now w /\
  (load (clearExpiredCache w).2 = load w \/
   load (clearExpiredCache w).2 = fresh_items (now w) (load w)).
Proof.
  destruct (file (disk w)) as [text|] eqn:Hfile.
  - destruct (stored w) as [cache|] eqn:Hst.
    + rewrite (clearExpiredCache_stored _ _ Hst). simpl.
      rewrite (stored_load _ _ Hst).
      assert (Hrd : readable (disk w) = true).
      { unfold stored in Hst. destruct (file (disk w)) as [[|]|];
          try discriminate. now destruct (readable (disk w)). }
      destruct (0 <? _); [|split; [reflexivity|left; now apply stored_load]].
      destruct (writable (disk w)); simpl;
        [|split; [reflexivity|left; now apply stored_load]].
      split; [reflexivity|right].
      unfold load. now rewrite stored_set_file, Hrd.
    + rewrite clearExpiredCache_unreadable by eauto. auto.
  - rewrite clearExpiredCache_absent by assumption. simpl.
    destruct (load_initializeCache w) as [Hl Hn]. auto.
Qed.

Lemma advances_clearExpiredCache : advances clearExpiredCache.
Proof.
  intros w. destruct (load_clearExpiredCache w) as [Hn [Hl|Hl]].
  - apply follows_same_load; [lia|assumption].
  - split; [lia|]. intros k item. unfold entry. rewrite Hl.
    intros Hit. apply fresh_items_lookup in Hit as [Hit _]. auto.
Qed.

Create HintDb advances.
#[local] Hint Resolve advances_ret advances_throw advances_bind
  advances_try_catch advances_console_log advances_getFromCache
  advances_initializeCache advances_saveToCache advances_clearExpiredCache
  : advances.

Lemma advances_getCachedOrFetch (key : string) (fetchFn : FetchFn)
    (forceRefresh : bool) :
  advances fetchFn -> advances (getCachedOrFetch key fetchFn forceRefresh).
Proof.
  intros Hf. unfold getCachedOrFetch.
  apply advances_bind.
  { destruct forceRefresh; auto with advances. }
  intros cached. apply advances_bind.
  - destruct (truthy cached); auto 6 with advances.
  - intros fetched. destruct (truthy fetched); auto with advances.
Qed.

Lemma follows_step (op : Op) (w : World) :
  well_behaved op -> follows w (step w op).
Proof.
  destruct op as [|key|key v| |key fetchFn forceRefresh|d]; simpl; intros Hwb.
  - apply advances_initializeCache.
  - apply advances_getFromCache.
  - apply advances_saveToCache.
  - apply advances_clearExpiredCache.
  - now apply advances_getCachedOrFetch.
  - apply follows_same_load; [simpl; lia|reflexivity].
Qed.

Lemma follows_run (ops : list Op) :
  forall w : World, Forall well_behaved ops -> follows w (run ops w).
Proof.
  unfold run. induction ops as [|op ops IH]; intros w Hall; simpl.
  - apply follows_refl.
  - inversion Hall as [|? ? Hop Hrest]; subst.
    eapply follows_trans; [apply (follows_step op w Hop)|].
    apply IH, Hrest.
Qed.

(** ** Reads after a write, as time passes *)

(** After a write that succeeded, the clock has not moved, and the item
    the file holds under the key, if any, is the one written, stamped with
    the time of the write. *)
Lemma saveToCache_entry_inv (key : string) (v : JSON) (w w' : World)
    (item : CacheItem) :
  saveToCache key v w = (Return true, w') ->
  entry key w' = Some item ->
  item = mkItem (now w) v /\ now w' = now w.
Proof.
  intros Hsave Hent. apply saveToCache_true in Hsave as (Hst & Hnow & _).
  split; [|exact Hnow].
  unfold entry, load in Hent. rewrite Hst in Hent. simpl in Hent.
  now apply assign_lookup_key in Hent.
Qed.

(** For every key but ["__proto__"], a write that succeeded left the item
    under its key. *)
Lemma saveToCache_entry (key : string) (v : JSON) (w w' : World) :
  key <> "__proto__" ->
  saveToCache key v w = (Return true, w') ->
  entry key w' = Some (mkItem (now w) v) /\ now w' = now w.
Proof.
  intros Hkey Hsave. apply saveToCache_true in Hsave as (Hst & Hnow & _).
  split; [|exact Hnow].
  unfold entry, load. rewrite Hst. simpl.
  rewrite assign_plain by assumption. apply lookup_insert_eq.
Qed.

Lemma entry_disk (key : string) (w w' : World) :
  disk w' = disk w -> entry key w' = entry key w.
Proof. intros Hdisk. unfold entry, load. now rewrite (stored_disk _ _ Hdisk). Qed.


(** Once [CACHE_DURATION] has passed, a read returns [null]; the item is
    still in the file. *)
Lemma get_after_ttl (key : string) (v : JSON) (w w1 w2 : World) :
  key <> "__proto__" ->
  saveToCache key v w = (Return true, w1) ->
  disk w2 = disk w1 ->
  CACHE_DURATION <= now w2 - now w ->
  getFromCache key w2 = (Return JNull, w2) /\
  entry key w2 = Some (mkItem (now w) v).
Proof.
  intros Hkey Hsave Hdisk Hage.
  destruct (saveToCache_entry key v w w1 Hkey Hsave) as [Hent0 _].
  assert (Hent : entry key w2 = Some (mkItem (now w) v))
    by now rewrite (entry_disk key w1 w2 Hdisk).
  split; [|exact Hent].
  rewrite getFromCache_eq. unfold fresh_data. rewrite Hent.
  unfold fresh. simpl.
  destruct (Z.ltb_spec (now w2 - now w) CACHE_DURATION); [lia|reflexivity].
Qed.

(** A fetch that fails over a stale item: the second read is as strict as
    the first, and the call throws. *)
Lemma stale_value_not_served (key : string) (fetchFn : FetchFn)
    (forceRefresh : bool) (w w1 : World) (e : JsError) (item : CacheItem) :
  entry key w = Some item ->
  expired (now w) item = true ->
  fetchFn w = (Throw e, w1) ->
  disk w1 = disk w ->
  now w <= now w1 ->
  (getCachedOrFetch key fetchFn forceRefresh w).1 = Throw no_data_error.
Proof.
  intros Hent Hex Hfetch Hdisk Hclock.
  assert (Hstale : forall c, fresh_data key (mkWorld (disk w) (now w1) c) = JNull).
  { intros c. unfold fresh_data.
    replace (entry key (mkWorld (disk w) (now w1) c)) with (entry key w)
      by reflexivity.
    rewrite Hent. simpl.
    apply expired_spec in Hex. unfold fresh.
    destruct (Z.ltb_spec (now w1 - timestamp item) CACHE_DURATION);
      [lia|reflexivity]. }
  rewrite (getCachedOrFetch_failed key fetchFn forceRefresh w w1 e);
    try assumption.
  - simpl. rewrite Hdisk. now rewrite Hstale.
  - right. unfold fresh_data. rewrite Hent.
    rewrite expired_not_fresh in Hex.
    now destruct (fresh (now w) item).
Qed.

(** * The claims *)

(** C1 (the code falls short of the claim): the claim has a failed fetch over
    a stale item return the stale value.  In the code the fallback read is
    [getFromCache] again, which filters by age exactly as the first read
    did.  With ["x"] cached at time 0, the clock at [CACHE_DURATION] and a
    fetch that fails, the item [{a: 1}] is still in the file and the call
    throws. *)
Theorem stale_fallback_throws :
  entry "x" stale_world = Some (mkItem 0 recipe) /\
  getCachedOrFetch "x" (throw network_down) false stale_world =
    (Throw no_data_error,
     mkWorld (disk stale_world) (now stale_world) [fallback_line]).
Proof. split; vm_compute; reflexivity. Qed.

(** C2, as stated, fails: a fetch that succeeds with [0] does not return
    [0]. *)
Lemma falsy_fetch_not_returned :
  ~ ((getCachedOrFetch "x" (ret (JNum 0)) false no_file_world).1
     = Return (JNum 0)).
Proof. vm_compute. discriminate. Qed.

(** C2 (amended): when the fetch function is invoked and succeeds with [v],
    [v] is handed to [saveToCache], which stores it under the key when the
    medium is healthy and the key is not ["__proto__"]; the call then
    returns [v] when [v] is truthy, as every array and object is, the empty
    ones included, and throws the no-data error when [v] is falsy. *)
Theorem fetched_value_saved_then_tested (key : string) (fetchFn : FetchFn)
    (forceRefresh : bool) (w w1 : World) (v : JSON) :
  miss key forceRefresh w ->
  fetchFn w = (Return v, w1) ->
  (truthy v = true ->
   getCachedOrFetch key fetchFn forceRefresh w =
     (Return v, (saveToCache key v w1).2)) /\
  (truthy v = false ->
   getCachedOrFetch key fetchFn forceRefresh w =
     (Throw no_data_error, (saveToCache key v w1).2)) /\
  (healthy_medium w1 -> key <> "__proto__" ->
   entry key (saveToCache key v w1).2 = Some (mkItem (now w1) v)) /\
  truthy (JArr []) = true /\ truthy (JObj []) = true.
Proof.
  intros Hmiss Hfetch.
  pose proof (getCachedOrFetch_fetched _ _ _ _ _ _ Hmiss Hfetch) as Heq.
  repeat split.
  - intros Htr. now rewrite Heq, Htr.
  - intros Htr. now rewrite Heq, Htr.
  - intros Hh Hkey.
    apply (saveToCache_entry key v w1 _ Hkey).
    now rewrite (saveToCache_healthy _ _ _ Hh).
Qed.

Lemma fetched_value_saved_then_tested_witness :
  getCachedOrFetch "x" (ret (JArr [])) false no_file_world =
    (Return (JArr []), (saveToCache "x" (JArr []) no_file_world).2) /\
  entry "x" (saveToCache "x" (JArr []) no_file_world).2
    = Some (mkItem 0 (JArr [])).
Proof.
  destruct (fetched_value_saved_then_tested "x" (ret (JArr [])) false
              no_file_world no_file_world (JArr []))
    as (Htruthy & _ & Hsaved & _).
  - right. reflexivity.
  - reflexivity.
  - split.
    + apply Htruthy. reflexivity.
    + apply Hsaved; [repeat split; intros; discriminate|discriminate].
Defined.

(** C3, as stated, fails: the error thrown does not carry the fetch
    failure. *)
Lemma no_data_error_without_cause :
  ~ (exists err : JsError,
       (getCachedOrFetch "x" (throw network_down) false no_file_world).1
         = Throw err
       /\ error_cause err = Some network_down).
Proof.
  intros (err & Hthrow & Hcause). vm_compute in Hthrow.
  injection Hthrow as <-. discriminate Hcause.
Qed.

(** C3 (amended): for a key with no item in the file, when the fetch
    function fails and has not stored the key itself, the call throws
    [new Error('Failed to fetch data and no cache available')], the same
    error whatever the fetch failure was: it has no cause. *)
Theorem never_cached_fetch_failure_throws (key : string) (fetchFn : FetchFn)
    (forceRefresh : bool) (w w1 : World) (e : JsError) :
  entry key w = None ->
  fetchFn w = (Throw e, w1) ->
  entry key w1 = None ->
  getCachedOrFetch key fetchFn forceRefresh w =
    (Throw (MkError "Error" "Failed to fetch data and no cache available" None),
     mkWorld (disk w1) (now w1) (console w1 ++ [fallback_line])).
Proof.
  intros Hnone Hfetch Hnone1.
  rewrite (getCachedOrFetch_failed key fetchFn forceRefresh w w1 e);
    [|right; unfold fresh_data; now rewrite Hnone|assumption].
  simpl. unfold fresh_data.
  replace (entry key (mkWorld (disk w1) (now w1) (console w1 ++ [fallback_line])))
    with (entry key w1) by reflexivity.
  now rewrite Hnone1.
Qed.

Lemma never_cached_fetch_failure_throws_witness :
  getCachedOrFetch "x" (throw network_down) false no_file_world =
    (Throw (MkError "Error" "Failed to fetch data and no cache available" None),
     mkWorld (disk no_file_world) 0 [fallback_line]).
Proof.
  apply (never_cached_fetch_failure_throws "x" (throw network_down) false
           no_file_world no_file_world network_down); reflexivity.
Defined.




(** C5 (the code falls short of the claim): after [saveToCache "x" {a: 1}]
    at time 0, a read one millisecond before [CACHE_DURATION] returns the
    value, a read at [CACHE_DURATION] returns [null] and the item is still
    in the file, as the claim says.  But the module has no read that ignores
    freshness: the read used as fallback is [getFromCache], so at
    [CACHE_DURATION] it returns [null] too and [getCachedOrFetch] with a
    failing fetch throws, where the claim has that read return the value. *)
Theorem expired_item_kept_but_never_read :
  let written := (saveToCache "x" recipe no_file_world).2 in
  let early := set_now (CACHE_DURATION - 1) written in
  let late := set_now CACHE_DURATION written in
  getFromCache "x" early = (Return recipe, early) /\
  getFromCache "x" late = (Return JNull, late) /\
  entry "x" late = Some (mkItem 0 recipe) /\
  (getCachedOrFetch "x" (throw network_down) false late).1
    = Throw no_data_error.
Proof. repeat split; vm_compute; reflexivity. Qed.







(** C8, as stated, fails: with no cache file, and so no expired item, the
    call does not leave the medium untouched: [initializeCache] creates the
    file. *)
Lemma clearExpired_creates_missing_file :
  ~ ((forall (k : string) (item : CacheItem),
        entry k no_file_world = Some item ->
        now no_file_world - timestamp item < CACHE_DURATION) ->
     disk (clearExpiredCache no_file_world).2 = disk no_file_world).
Proof.
  intros Hclaim.
  assert (Hdisk : disk (clearExpiredCache no_file_world).2
                  = disk no_file_world).
  { apply Hclaim. intros k item Hk. vm_compute in Hk. discriminate Hk. }
  vm_compute in Hdisk. discriminate Hdisk.
Qed.

(** C8 (amended): [clearExpiredCache] writes the mapping back only when it
    removed an item.  When it returns 0 the world, the count of writes
    included, is the one [initializeCache] left: an existing file is
    untouched, a missing file has been created empty.  It returns 0 whenever
    no item is expired.  After [initializeCache] it writes the file once
    when it returns a positive count and not at all otherwise. *)
Theorem clearExpired_writes_back_only_on_removal (w : World) :
  ((clearExpiredCache w).1 = Return 0 ->
   (clearExpiredCache w).2 = (initializeCache w).2) /\
  (is_Some (file (disk w)) -> (clearExpiredCache w).1 = Return 0 ->
   (clearExpiredCache w).2 = w) /\
  ((forall (k : string) (item : CacheItem),
      entry k w = Some item -> now w - timestamp item < CACHE_DURATION) ->
   (clearExpiredCache w).1 = Return 0) /\
  (forall n : Z, (clearExpiredCache w).1 = Return n ->
     writes (disk (clearExpiredCache w).2)
     = (writes (disk (initializeCache w).2)
        + (if (0 <? n)%Z then 1 else 0))%nat).
Proof.
  assert (Hwrites : forall n : Z, (clearExpiredCache w).1 = Return n ->
     writes (disk (clearExpiredCache w).2)
     = (writes (disk (initializeCache w).2)
        + (if (0 <? n)%Z then 1 else 0))%nat).
  { intros n.
    destruct (file (disk w)) as [text|] eqn:Hfile.
    - rewrite (initializeCache_present w) by eauto.
      destruct (stored w) as [cache|] eqn:Hst.
      + rewrite (clearExpiredCache_stored _ _ Hst). simpl.
        destruct (0 <? Z.of_nat (size (expired_items (now w) cache))) eqn:Hpos.
        * destruct (writable (disk w)); simpl; intros [= <-].
          -- rewrite Hpos. simpl. lia.
          -- simpl. lia.
        * simpl. intros [= <-]. simpl. lia.
      + rewrite clearExpiredCache_unreadable by eauto.
        simpl. intros [= <-]. simpl. lia.
    - rewrite clearExpiredCache_absent by assumption.
      simpl. intros [= <-]. simpl. lia. }
  assert (Hzero : (clearExpiredCache w).1 = Return 0 ->
                  (clearExpiredCache w).2 = (initializeCache w).2).
  { destruct (file (disk w)) as [text|] eqn:Hfile.
    - rewrite (initializeCache_present w) by eauto.
      destruct (stored w) as [cache|] eqn:Hst.
      + rewrite (clearExpiredCache_stored _ _ Hst). simpl.
        destruct (0 <? Z.of_nat (size (expired_items (now w) cache))) eqn:Hpos;
          [|reflexivity].
        destruct (writable (disk w)); [|reflexivity].
        simpl. intros [= Hn]. apply Z.ltb_lt in Hpos. lia.
      + now rewrite clearExpiredCache_unreadable by eauto.
    - now rewrite clearExpiredCache_absent by assumption. }
  split; [exact Hzero|]. split; [|split; [|exact Hwrites]].
  - intros Hsome Hret. rewrite (Hzero Hret).
    now rewrite initializeCache_present.
  - intros Hfresh.
    destruct (file (disk w)) as [text|] eqn:Hfile.
    + destruct (stored w) as [cache|] eqn:Hst.
      * rewrite (clearExpiredCache_stored _ _ Hst). simpl.
        assert (Hempty : expired_items (now w) cache = ∅).
        { apply map_eq. intros k. rewrite lookup_empty.
          apply eq_None_not_Some. intros [item Hit].
          apply expired_items_lookup in Hit as [Hit Hex].
          apply expired_spec in Hex.
          assert (Hk : entry k w = Some item).
          { unfold entry. now rewrite (stored_load _ _ Hst). }
          specialize (Hfresh _ _ Hk). lia. }
        now rewrite Hempty.
      * now rewrite clearExpiredCache_unreadable by eauto.
    + now rewrite clearExpiredCache_absent by assumption.
Qed.

Lemma clearExpired_writes_back_only_on_removal_witness :
  (clearExpiredCache recipe_written).1 = Return 0 /\
  (clearExpiredCache recipe_written).2 = recipe_written.
Proof.
  destruct (clearExpired_writes_back_only_on_removal recipe_written)
    as (_ & Hkept & Hnone & _).
  assert (Hret : (clearExpiredCache recipe_written).1 = Return 0).
  { apply Hnone. intros k item Hk.
    destruct (decide (k = "x")) as [->|Hne].
    - vm_compute in Hk. injection Hk as <-. reflexivity.
    - unfold entry, load, recipe_written, healthy, stored in Hk. simpl in Hk.
      rewrite lookup_singleton_ne in Hk by congruence. discriminate Hk. }
  split; [exact Hret|].
  apply Hkept; [simpl; eauto|exact Hret].
Defined.

(** C9, as stated, fails: a write stamps [Date.now()] and compares it with
    nothing.  When the clock is set back by 10 ms between two writes to
    ["x"], the later write bears the stamp -10 after the stamp 0. *)
Lemma later_write_older_when_clock_steps_back :
  ~ (forall item1 item2 : CacheItem,
       entry "x" recipe_written = Some item1 ->
       entry "x" (run [Elapse (-10); CallSave "x" (JNum 7)] recipe_written)
         = Some item2 ->
       timestamp item1 <= timestamp item2).
Proof.
  intros Hclaim.
  specialize (Hclaim (mkItem 0 recipe) (mkItem (-10) (JNum 7))
                eq_refl eq_refl).
  simpl in Hclaim. lia.
Qed.

(** C9 (amended): after a write to a key, whatever operations follow (reads,
    writes, sweeps, [getCachedOrFetch] calls), as long as the clock does not
    run backwards and the fetch functions respect that too, the item the
    file then holds for the key, rewritten by a later write or not, bears a
    timestamp at least that of the first write. *)
Theorem storedAt_never_decreases (key : string) (v : JSON) (w w1 : World)
    (ops : list Op) (item1 item2 : CacheItem) :
  saveToCache key v w = (Return true, w1) ->
  Forall well_behaved ops ->
  entry key w1 = Some item1 ->
  entry key (run ops w1) = Some item2 ->
  timestamp item1 <= timestamp item2.
Proof.
  intros Hsave Hops H1 H2.
  destruct (saveToCache_entry_inv key v w w1 item1 Hsave H1) as (-> & Hnow).
  simpl.
  destruct (follows_run ops w1 Hops) as [_ Hitems].
  destruct (Hitems _ _ H2) as [Hsame|Hlater].
  - rewrite H1 in Hsame. injection Hsame as <-. simpl. lia.
  - lia.
Qed.

Lemma storedAt_never_decreases_witness :
  timestamp (mkItem 0 recipe) <= timestamp (mkItem 10 (JNum 7)).
Proof.
  apply (storedAt_never_decreases "x" recipe no_file_world recipe_written
           [Elapse 10; CallSave "x" (JNum 7)]).
  - reflexivity.
  - repeat constructor. simpl. lia.
  - reflexivity.
  - reflexivity.
Defined.

(** C10, as stated, fails: with a file that does not parse, so that the
    save fails, a fetch that succeeds with [null] is not returned. *)
Lemma falsy_fetch_throws_when_save_fails :
  ~ ((getCachedOrFetch "x" (ret JNull) false corrupt_world).1 = Return JNull).
Proof. vm_compute. discriminate. Qed.

(** C10 (amended): [saveToCache] returns a boolean in every world, it never
    throws, and the boolean is [false] on any storage or parse error, that
    is, unless the medium is healthy; and when the fetch function is invoked
    and succeeds with [v], the outcome of [getCachedOrFetch] depends on [v]
    alone, not on that boolean: [v] is returned when it is truthy, the
    no-data error is thrown when it is falsy. *)
Theorem save_result_ignored (key : string) (fetchFn : FetchFn)
    (forceRefresh : bool) (w w1 : World) (v : JSON) :
  miss key forceRefresh w ->
  fetchFn w = (Return v, w1) ->
  exists (saved : bool) (w2 : World),
    saveToCache key v w1 = (Return saved, w2) /\
    (saved = true <-> healthy_medium w1) /\
    getCachedOrFetch key fetchFn forceRefresh w =
      (if truthy v then Return v else Throw no_data_error, w2).
Proof.
  intros Hmiss Hfetch.
  destruct (saveToCache_returns key v w1) as (saved & w2 & Hsave).
  exists saved, w2. split; [exact Hsave|]. split.
  - rewrite <- (saveToCache_true_iff key v w1), Hsave. simpl.
    split; congruence.
  - rewrite (getCachedOrFetch_fetched _ _ _ _ _ _ Hmiss Hfetch).
    now rewrite Hsave.
Qed.

Lemma save_result_ignored_witness :
  saveToCache "x" recipe corrupt_world = (Return false, corrupt_world) /\
  getCachedOrFetch "x" (ret recipe) false corrupt_world =
    (Return recipe, corrupt_world).
Proof.
  destruct (save_result_ignored "x" (ret recipe) false corrupt_world
              corrupt_world recipe) as (saved & w2 & Hsave & _ & Hcall).
  - right. reflexivity.
  - reflexivity.
  - vm_compute in Hsave. injection Hsave as <- <-.
    split; [reflexivity|exact Hcall].
Defined.


(** * Further properties of the cache *)

(** The three ways a call of [getCachedOrFetch] can go. *)
Lemma getCachedOrFetch_cases (key : string) (fetchFn : FetchFn)
    (forceRefresh : bool) (w : World) :
  (forceRefresh = false /\ truthy (fresh_data key w) = true /\
   getCachedOrFetch key fetchFn forceRefresh w
     = (Return (fresh_data key w), w)) \/
  (exists (v : JSON) (w1 : World),
     miss key forceRefresh w /\ fetchFn w = (Return v, w1) /\
     getCachedOrFetch key fetchFn forceRefresh w =
       (if truthy v then Return v else Throw no_data_error,
        (saveToCache key v w1).2)) \/
  (exists (e : JsError) (w1 : World),
     miss key forceRefresh w /\ fetchFn w = (Throw e, w1) /\
     getCachedOrFetch key fetchFn forceRefresh w =
       let w2 := mkWorld (disk w1) (now w1) (console w1 ++ [fallback_line]) in
       (if truthy (fresh_data key w2) then Return (fresh_data key w2)
        else Throw no_data_error, w2)).
Proof.
  assert (Hdec : miss key forceRefresh w \/
                 (forceRefresh = false /\ truthy (fresh_data key w) = true)).
  { unfold miss. destruct forceRefresh; [auto|].
    destruct (truthy (fresh_data key w)); auto. }
  destruct Hdec as [Hmiss|[-> Hhit]].
  - right. destruct (fetchFn w) as [[v|e] w1] eqn:Hfetch.
    + left. exists v, w1. repeat split; try assumption.
      now apply getCachedOrFetch_fetched.
    + right. exists e, w1. repeat split; try assumption.
      now apply (getCachedOrFetch_failed key fetchFn forceRefresh w w1 e).
  - left. repeat split; try assumption. now apply getCachedOrFetch_hit.
Qed.

(** X1: [getFromCache] never throws and never changes anything, whatever
    the state of the medium; when the file is missing, unreadable or
    malformed, or has no item under the key, it returns [null]. *)
Theorem getFromCache_total_and_pure (key : string) (w : World) :
  (exists v : JSON, getFromCache key w = (Return v, w)) /\
  (entry key w = None -> getFromCache key w = (Return JNull, w)) /\
  (stored w = None -> getFromCache key w = (Return JNull, w)).
Proof.
  rewrite getFromCache_eq. split; [eauto|]. split.
  - intros Hnone. unfold fresh_data. now rewrite Hnone.
  - intros Hst. unfold fresh_data, entry, load. rewrite Hst. simpl.
    now rewrite lookup_empty.
Qed.

Lemma saveToCache_entry_other (key other : string) (v : JSON) (w : World) :
  other <> key -> entry other (saveToCache key v w).2 = entry other w.
Proof.
  intros Hne. unfold entry.
  destruct (saveToCache_load key v w) as [Hl|Hl]; rewrite Hl; [reflexivity|].
  now apply assign_lookup_ne.
Qed.

Lemma getFromCache_total_and_pure_witness :
  getFromCache "x" corrupt_world = (Return JNull, corrupt_world).
Proof.
  destruct (getFromCache_total_and_pure "x" corrupt_world)
    as (_ & _ & Hnull).
  apply Hnull. reflexivity.
Defined.

(** X2: [saveToCache] touches one key only: the item stored under any
    other key, and what a read of it returns, are the same before and
    after, whether the write succeeded or not. *)
Theorem saveToCache_other_keys (key other : string) (v : JSON) (w : World) :
  other <> key ->
  entry other (saveToCache key v w).2 = entry other w /\
  (getFromCache other (saveToCache key v w).2).1 = (getFromCache other w).1.
Proof.
  intros Hne.
  pose proof (saveToCache_entry_other key other v w Hne) as Hent.
  split; [exact Hent|].
  rewrite !getFromCache_eq. simpl. unfold fresh_data.
  now rewrite Hent, now_saveToCache.
Qed.

Lemma saveToCache_other_keys_witness :
  entry "x" (saveToCache "y" (JNum 7) recipe_written).2
    = Some (mkItem 0 recipe).
Proof.
  destruct (saveToCache_other_keys "y" "x" (JNum 7) recipe_written)
    as [Hent _]; [discriminate|].
  rewrite Hent. reflexivity.
Defined.

(** X3: a write that fails does no harm: it leaves the mapping as it was,
    and leaves an existing file untouched. *)
Theorem saveToCache_failure_harmless (key : string) (v : JSON) (w : World) :
  (saveToCache key v w).1 = Return false ->
  load (saveToCache key v w).2 = load w /\
  (is_Some (file (disk w)) -> (saveToCache key v w).2 = w).
Proof.
  intros Hret.
  destruct (file (disk w)) as [text|] eqn:Hfile.
  - destruct (stored w) as [cache|] eqn:Hst.
    + rewrite (saveToCache_stored _ _ _ _ Hst) in *.
      destruct (writable (disk w)); [discriminate|]. now split.
    + rewrite saveToCache_unreadable by eauto. now split.
  - rewrite saveToCache_absent in * by assumption.
    destruct (writable (disk w)); [|split; [reflexivity|now intros [? ?]]].
    destruct (readable (disk w)) eqn:Hrd; [discriminate|].
    split; [|now intros [? ?]].
    simpl. unfold load. rewrite stored_set_file, Hrd.
    now rewrite (stored_absent _ Hfile).
Qed.

Lemma saveToCache_failure_harmless_witness :
  (saveToCache "x" recipe corrupt_world).2 = corrupt_world.
Proof.
  destruct (saveToCache_failure_harmless "x" recipe corrupt_world)
    as [_ Hsame]; [reflexivity|].
  apply Hsame. simpl. eauto.
Defined.

(** X4: [clearExpiredCache] never throws; the count it returns is between
    0 and the number of items it found, and it does not move the clock. *)
Theorem clearExpiredCache_total (w : World) :
  exists (n : Z) (w' : World),
    clearExpiredCache w = (Return n, w') /\
    0 <= n <= Z.of_nat (size (load w)) /\
    now w' = now w.
Proof.
  destruct (file (disk w)) as [text|] eqn:Hfile.
  - destruct (stored w) as [cache|] eqn:Hst.
    + rewrite (clearExpiredCache_stored _ _ Hst).
      rewrite (stored_load _ _ Hst). simpl.
      pose proof (size_fresh_expired (now w) cache) as Hsz.
      destruct (0 <? _); [destruct (writable (disk w))|];
        eexists _, _; (split; [reflexivity|]); simpl; split; lia.
    + rewrite clearExpiredCache_unreadable by eauto.
      eexists _, _. split; [reflexivity|]. split; lia.
  - rewrite clearExpiredCache_absent by assumption.
    destruct (load_initializeCache w) as [_ Hn].
    eexists _, _. split; [reflexivity|]. split; [lia|exact Hn].
Qed.

(** X5: the sweep is invisible to reads: at the instant of the sweep, a
    read of any key returns the same before and after it. *)
Theorem clearExpiredCache_invisible_to_reads (key : string) (w : World) :
  (getFromCache key (clearExpiredCache w).2).1 = (getFromCache key w).1.
Proof.
  rewrite !getFromCache_eq. simpl. f_equal.
  destruct (load_clearExpiredCache w) as [Hn [Hl|Hl]];
    unfold fresh_data, entry; rewrite Hl, Hn; [reflexivity|].
  destruct (load w !! key) as [item|] eqn:Hk.
  - destruct (fresh (now w) item) eqn:Hfr.
    + assert (Hkept : fresh_items (now w) (load w) !! key = Some item)
        by now apply fresh_items_lookup.
      now rewrite Hkept, Hfr.
    + destruct (fresh_items (now w) (load w) !! key) as [item'|] eqn:Hk';
        [|reflexivity].
      apply fresh_items_lookup in Hk' as [Hk' Hfr'].
      rewrite Hk in Hk'. injection Hk' as <-. congruence.
  - destruct (fresh_items (now w) (load w) !! key) as [item'|] eqn:Hk';
      [|reflexivity].
    apply fresh_items_lookup in Hk' as [Hk' _]. congruence.
Qed.

(** X6: [getCachedOrFetch] never returns a falsy value, whatever the fetch
    function and the cache hold. *)
Theorem getCachedOrFetch_returns_truthy (key : string) (fetchFn : FetchFn)
    (forceRefresh : bool) (w w' : World) (v : JSON) :
  getCachedOrFetch key fetchFn forceRefresh w = (Return v, w') ->
  truthy v = true.
Proof.
  intros Hcall.
  destruct (getCachedOrFetch_cases key fetchFn forceRefresh w)
    as [(_ & Htr & Heq)|[(v1 & w1 & _ & _ & Heq)|(e & w1 & _ & _ & Heq)]];
    rewrite Heq in Hcall.
  - now injection Hcall as <- _.
  - destruct (truthy v1) eqn:Htr; [|discriminate].
    now injection Hcall as <- _.
  - simpl in Hcall.
    destruct (truthy (fresh_data key _)) eqn:Htr; [|discriminate].
    now injection Hcall as <- _.
Qed.

Lemma getCachedOrFetch_returns_truthy_witness :
  getCachedOrFetch "x" (ret recipe) false no_file_world
    = (Return recipe, recipe_written) /\
  truthy recipe = true.
Proof.
  assert (Hcall : getCachedOrFetch "x" (ret recipe) false no_file_world
                  = (Return recipe, recipe_written)) by reflexivity.
  split; [exact Hcall|].
  exact (getCachedOrFetch_returns_truthy "x" (ret recipe) false
           no_file_world recipe_written recipe Hcall).
Defined.

(** X7: the only error [getCachedOrFetch] ever throws is its own
    [Error('Failed to fetch data and no cache available')]: an error of the
    fetch function never reaches the caller. *)
Theorem getCachedOrFetch_throws_only_no_data (key : string)
    (fetchFn : FetchFn) (forceRefresh : bool) (w w' : World) (e : JsError) :
  getCachedOrFetch key fetchFn forceRefresh w = (Throw e, w') ->
  e = no_data_error.
Proof.
  intros Hcall.
  destruct (getCachedOrFetch_cases key fetchFn forceRefresh w)
    as [(_ & Htr & Heq)|[(v1 & w1 & _ & _ & Heq)|(e1 & w1 & _ & _ & Heq)]];
    rewrite Heq in Hcall.
  - discriminate.
  - destruct (truthy v1); [discriminate|]. now injection Hcall as <- _.
  - simpl in Hcall.
    destruct (truthy (fresh_data key _)); [discriminate|].
    now injection Hcall as <- _.
Qed.

Lemma getCachedOrFetch_throws_only_no_data_witness :
  exists (e : JsError) (w' : World),
    getCachedOrFetch "x" (throw network_down) false no_file_world
      = (Throw e, w') /\
    e = no_data_error.
Proof.
  eexists _, _. split; [reflexivity|].
  apply (getCachedOrFetch_throws_only_no_data "x" (throw network_down) false
           no_file_world
           (mkWorld (disk no_file_world) 0 [fallback_line])).
  reflexivity.
Defined.

(** X8: fast path.  When the file holds, under the key, an item younger than
    [CACHE_DURATION] whose data is truthy, [getCachedOrFetch] without
    [forceRefresh] returns that data and changes nothing; the fetch function
    plays no part. *)
Theorem getCachedOrFetch_fresh_hit (key : string) (fetchFn : FetchFn)
    (w : World) (item : CacheItem) :
  entry key w = Some item ->
  now w - timestamp item < CACHE_DURATION ->
  truthy (data item) = true ->
  getCachedOrFetch key fetchFn false w = (Return (data item), w).
Proof.
  intros Hent Hage Htr.
  assert (Hfd : fresh_data key w = data item).
  { unfold fresh_data. rewrite Hent.
    apply fresh_spec in Hage. now rewrite Hage. }
  rewrite getCachedOrFetch_hit; rewrite Hfd; [reflexivity|assumption].
Qed.

Lemma getCachedOrFetch_fresh_hit_witness :
  getCachedOrFetch "x" (throw network_down) false recipe_written
    = (Return recipe, recipe_written).
Proof.
  apply (getCachedOrFetch_fresh_hit "x" (throw network_down) recipe_written
           (mkItem 0 recipe)); reflexivity.
Defined.

(** X9: one fetch per miss.  For every key but ["__proto__"], after a call
    that fetched a truthy value on a healthy medium, any call for the same
    key made while less than [CACHE_DURATION] has passed since the fetch
    ended, the file being as the first call left it, returns that value
    without its fetch function playing any part. *)
Theorem getCachedOrFetch_then_cached (key : string) (fetchFn later : FetchFn)
    (forceRefresh : bool) (w w1 w2 w3 : World) (v : JSON) :
  key <> "__proto__" ->
  miss key forceRefresh w ->
  fetchFn w = (Return v, w1) ->
  healthy_medium w1 ->
  truthy v = true ->
  getCachedOrFetch key fetchFn forceRefresh w = (Return v, w2) ->
  disk w3 = disk w2 ->
  now w3 - now w1 < CACHE_DURATION ->
  getCachedOrFetch key later false w3 = (Return v, w3).
Proof.
  intros Hkey Hmiss Hfetch Hh Htr Hcall Hdisk Hage.
  rewrite (getCachedOrFetch_fetched _ _ _ _ _ _ Hmiss Hfetch) in Hcall.
  rewrite Htr in Hcall. injection Hcall as <-.
  assert (Hsave : saveToCache key v w1
                  = (Return true, (saveToCache key v w1).2))
    by now rewrite (saveToCache_healthy _ _ _ Hh).
  destruct (saveToCache_entry key v w1 _ Hkey Hsave) as [Hent _].
  assert (Hfd : fresh_data key w3 = v).
  { unfold fresh_data. rewrite (entry_disk key _ w3 Hdisk), Hent. simpl.
    assert (Hfr : fresh (now w3) (mkItem (now w1) v) = true)
      by now apply fresh_spec.
    now rewrite Hfr. }
  rewrite getCachedOrFetch_hit; rewrite Hfd; [reflexivity|assumption].
Qed.

Lemma getCachedOrFetch_then_cached_witness :
  getCachedOrFetch "x" (throw network_down) false
    (set_now 1000 recipe_written)
  = (Return recipe, set_now 1000 recipe_written).
Proof.
  apply (getCachedOrFetch_then_cached "x" (ret recipe) (throw network_down)
           false no_file_world no_file_world recipe_written
           (set_now 1000 recipe_written) recipe).
  - discriminate.
  - right. reflexivity.
  - reflexivity.
  - repeat split; intros; discriminate.
  - reflexivity.
  - reflexivity.
  - reflexivity.
  - reflexivity.
Defined.

(** X10: on a forced refresh whose fetch fails, the fallback read serves
    the cached item as long as it is still fresh (and truthy): a failure of
    the fetch function is hidden behind a fresh item. *)
Theorem forced_refresh_falls_back_on_fresh_item (key : string)
    (fetchFn : FetchFn) (w w1 : World) (e : JsError) (item : CacheItem) :
  fetchFn w = (Throw e, w1) ->
  entry key w1 = Some item ->
  now w1 - timestamp item < CACHE_DURATION ->
  truthy (data item) = true ->
  getCachedOrFetch key fetchFn true w =
    (Return (data item),
     mkWorld (disk w1) (now w1) (console w1 ++ [fallback_line])).
Proof.
  intros Hfetch Hent Hage Htr.
  rewrite (getCachedOrFetch_failed key fetchFn true w w1 e);
    [|now left|assumption].
  simpl. unfold fresh_data.
  replace (entry key (mkWorld (disk w1) (now w1) (console w1 ++ [fallback_line])))
    with (entry key w1) by reflexivity.
  rewrite Hent. simpl. apply fresh_spec in Hage. now rewrite Hage, Htr.
Qed.

Lemma forced_refresh_falls_back_on_fresh_item_witness :
  getCachedOrFetch "x" (throw network_down) true recipe_written =
    (Return recipe, mkWorld (disk recipe_written) 0 [fallback_line]).
Proof.
  apply (forced_refresh_falls_back_on_fresh_item "x" (throw network_down)
           recipe_written recipe_written network_down (mkItem 0 recipe));
    reflexivity.
Defined.

(** X11: [initializeCache] throws only when the file is missing and the
    medium cannot be written, and then changes nothing.  When it returns,
    the file exists, the mapping is what it was, an already existing file is
    untouched, and a second call does nothing. *)
Theorem initializeCache_creates_once (w : World) :
  (forall e, (initializeCache w).1 = Throw e ->
     file (disk w) = None /\ writable (disk w) = false /\
     (initializeCache w).2 = w) /\
  ((initializeCache w).1 = Return tt ->
     is_Some (file (disk (initializeCache w).2)) /\
     load (initializeCache w).2 = load w /\
     (is_Some (file (disk w)) -> (initializeCache w).2 = w) /\
     initializeCache (initializeCache w).2 = (Return tt, (initializeCache w).2)).
Proof.
  destruct (file (disk w)) as [text|] eqn:Hfile.
  - rewrite initializeCache_present by eauto. simpl. split; [discriminate|].
    intros _. rewrite Hfile. repeat split; eauto.
    apply initializeCache_present. rewrite Hfile. eauto.
  - rewrite initializeCache_absent by assumption.
    destruct (writable (disk w)) eqn:Hwr; simpl.
    + split; [discriminate|]. intros _.
      split; [eauto|]. split.
      * unfold load. rewrite stored_set_file, (stored_absent _ Hfile).
        now destruct (readable (disk w)).
      * split; [now intros [? ?]|].
        apply initializeCache_present. simpl. eauto.
    + split; [|discriminate]. intros e _. auto.
Qed.

Lemma initializeCache_creates_once_witness :
  is_Some (file (disk (initializeCache no_file_world).2)) /\
  load (initializeCache no_file_world).2 = load no_file_world.
Proof.
  destruct (initializeCache_creates_once no_file_world) as [_ Hret].
  destruct (Hret eq_refl) as (Hsome & Hload & _).
  split; assumption.
Defined.

(** X12: [getCachedOrFetch] touches the item of its own key only: with a
    fetch function that leaves the mapping alone, the item under any other
    key is the same before and after the call, whatever its outcome. *)
Theorem getCachedOrFetch_other_keys (key other : string) (fetchFn : FetchFn)
    (forceRefresh : bool) (w : World) :
  other <> key ->
  (forall w0, load (fetchFn w0).2 = load w0) ->
  entry other (getCachedOrFetch key fetchFn forceRefresh w).2
    = entry other w.
Proof.
  intros Hne Hquiet. specialize (Hquiet w).
  destruct (getCachedOrFetch_cases key fetchFn forceRefresh w)
    as [(_ & _ & Heq)|[(v1 & w1 & _ & Hf & Heq)|(e1 & w1 & _ & Hf & Heq)]];
    rewrite Heq; simpl; [reflexivity| |].
  - rewrite Hf in Hquiet. simpl in Hquiet.
    rewrite (saveToCache_entry_other key other v1 w1 Hne).
    unfold entry. now rewrite Hquiet.
  - rewrite Hf in Hquiet. simpl in Hquiet.
    replace (entry other (mkWorld (disk w1) (now w1) (console w1 ++ [fallback_line])))
      with (entry other w1) by reflexivity.
    unfold entry. now rewrite Hquiet.
Qed.

Lemma getCachedOrFetch_other_keys_witness :
  entry "x" (getCachedOrFetch "y" (ret (JNum 7)) false recipe_written).2
    = Some (mkItem 0 recipe).
Proof.
  rewrite (getCachedOrFetch_other_keys "y" "x" (ret (JNum 7)) false
             recipe_written); [reflexivity|discriminate|reflexivity].
Defined.

(** X13: for every key but ["__proto__"], an item just written survives a
    sweep made at once: the sweep leaves it in the file and a read still
    returns its value. *)
Theorem written_item_survives_sweep (key : string) (v : JSON)
    (w w' : World) :
  key <> "__proto__" ->
  saveToCache key v w = (Return true, w') ->
  entry key (clearExpiredCache w').2 = Some (mkItem (now w) v) /\
  (getFromCache key (clearExpiredCache w').2).1 = Return v.
Proof.
  intros Hkey Hsave.
  destruct (saveToCache_entry key v w w' Hkey Hsave) as [Hent Hnow].
  assert (Hfr : fresh (now w') (mkItem (now w) v) = true).
  { apply fresh_spec. simpl. rewrite Hnow. unfold CACHE_DURATION. lia. }
  assert (Hkept : entry key (clearExpiredCache w').2 = Some (mkItem (now w) v)).
  { destruct (load_clearExpiredCache w') as [_ [Hl|Hl]];
      unfold entry; rewrite Hl; [exact Hent|].
    now apply fresh_items_lookup. }
  split; [exact Hkept|].
  rewrite getFromCache_eq. simpl. unfold fresh_data. rewrite Hkept.
  destruct (load_clearExpiredCache w') as [-> _]. now rewrite Hfr.
Qed.

Lemma written_item_survives_sweep_witness :
  entry "x" (clearExpiredCache recipe_written).2 = Some (mkItem 0 recipe) /\
  (getFromCache "x" (clearExpiredCache recipe_written).2).1 = Return recipe.
Proof.
  apply (written_item_survives_sweep "x" recipe no_file_world recipe_written).
  - discriminate.
  - reflexivity.
Defined.

(** * Properties of the favorites list *)

Section FavoritesProperties.
Import Favorites.

(** ** Equations of the operations *)

Lemma initializeFavorites_present (w : World) :
  is_Some (file w) -> initializeFavorites w = (Return tt, w).
Proof.
  intros [text Htext]. unfold initializeFavorites, try_catch, fs_access.
  now rewrite Htext.
Qed.

Lemma initializeFavorites_absent (w : World) :
  file w = None ->
  initializeFavorites w =
    if writable w
    then (Return tt, set_file (Parsed (JArr [])) w)
    else (Throw EACCES,
          mkWorld None (readable w) false
            (console w ++ [("Error creating favorites file:", EACCES)])).
Proof.
  intros Hnone.
  unfold initializeFavorites, try_catch, fs_access, bind, fs_mkdir,
    fs_writeFile, console_error, throw.
  rewrite Hnone. destruct (writable w) eqn:Hwr; simpl.
  - now rewrite Hwr.
  - now rewrite Hnone, Hwr.
Qed.

Lemma favorites_of_file (w : World) (items : list JSON) :
  favorites_of w = Some items ->
  file w = Some (Parsed (JArr items)) /\ readable w = true.
Proof.
  unfold favorites_of.
  destruct (file w) as [[raw|[]]|]; try discriminate.
  destruct (readable w); [|discriminate]. now intros [= ->].
Qed.

Lemma getFavorites_ready (w : World) (items : list JSON) :
  favorites_of w = Some items -> getFavorites w = (Return (JArr items), w).
Proof.
  intros Hfav. apply favorites_of_file in Hfav as [Hfile Hrd].
  unfold getFavorites, try_catch, bind.
  rewrite initializeFavorites_present by (rewrite Hfile; eauto).
  unfold fs_readFile. now rewrite Hfile, Hrd.
Qed.

Lemma get_idMeal_eq (v : JSON) (w : World) :
  v <> JNull -> get_idMeal v w = (Return (idMeal_of v), w).
Proof. destruct v; try reflexivity. congruence. Qed.

(** On an array without [null] the three array methods run their callback
    to the end without throwing. *)
Lemma array_some_ready (id : option JSON) (items : list JSON) (w : World) :
  no_null items ->
  array_some (fun favorite =>
                bind (get_idMeal favorite)
                     (fun theirs => ret (strict_eq theirs id)))
    items w
  = (Return (has_id id items), w).
Proof.
  induction 1 as [|x rest Hx Hrest IH]; [reflexivity|].
  simpl. unfold bind at 1 2. rewrite (get_idMeal_eq x w Hx). unfold ret at 1.
  destruct (strict_eq (idMeal_of x) id); [reflexivity|exact IH].
Qed.

Lemma array_some_recipe (recipe : JSON) (items : list JSON) (w : World) :
  no_null items -> recipe <> JNull ->
  array_some (fun favorite =>
                bind (get_idMeal favorite)
                     (fun theirs =>
                        bind (get_idMeal recipe)
                             (fun ours => ret (strict_eq theirs ours))))
    items w
  = (Return (has_id (idMeal_of recipe) items), w).
Proof.
  intros Hnn Hrecipe.
  induction Hnn as [|x rest Hx Hrest IH]; [reflexivity|].
  simpl. unfold bind at 1 2. rewrite (get_idMeal_eq x w Hx).
  unfold bind at 1. rewrite (get_idMeal_eq recipe w Hrecipe). unfold ret at 1.
  destruct (strict_eq (idMeal_of x) (idMeal_of recipe));
    [reflexivity|exact IH].
Qed.

Lemma array_filter_ready (id : JSON) (items : list JSON) (w : World) :
  no_null items ->
  array_filter (fun favorite =>
                  bind (get_idMeal favorite)
                       (fun theirs => ret (negb (strict_eq theirs (Some id)))))
    items w
  = (Return (without_id id items), w).
Proof.
  induction 1 as [|x rest Hx Hrest IH]; [reflexivity|].
  simpl. unfold bind at 1 2. rewrite (get_idMeal_eq x w Hx). unfold ret at 1.
  unfold bind at 1. rewrite IH. reflexivity.
Qed.

Lemma array_find_ready (id : JSON) (items : list JSON) (w : World) :
  no_null items ->
  array_find (fun favorite =>
                bind (get_idMeal favorite)
                     (fun theirs => ret (strict_eq theirs (Some id))))
    items w
  = (Return (List.find (fun favorite =>
                          strict_eq (idMeal_of favorite) (Some id)) items), w).
Proof.
  induction 1 as [|x rest Hx Hrest IH]; [reflexivity|].
  simpl. unfold bind at 1 2. rewrite (get_idMeal_eq x w Hx). unfold ret at 1.
  destruct (strict_eq (idMeal_of x) (Some id)); [reflexivity|exact IH].
Qed.

Lemma addFavorite_ready (recipe : JSON) (w : World) (items : list JSON) :
  favorites_of w = Some items -> no_null items -> recipe <> JNull ->
  addFavorite recipe w =
    if has_id (idMeal_of recipe) items then (Return false, w)
    else if writable w
         then (Return true, set_file (Parsed (JArr (items ++ [recipe]))) w)
         else (Return false,
               mkWorld (file w) (readable w) (writable w)
                 (console w ++ [("Error adding favorite recipe:", EACCES)])).
Proof.
  intros Hfav Hnn Hrecipe.
  pose proof (favorites_of_file _ _ Hfav) as [Hfile Hrd].
  unfold addFavorite, try_catch. unfold bind at 1.
  rewrite initializeFavorites_present by (rewrite Hfile; eauto).
  unfold bind at 1. rewrite (getFavorites_ready _ _ Hfav).
  unfold bind at 1. simpl as_array. unfold ret at 1.
  unfold bind at 1. rewrite (array_some_recipe recipe items w Hnn Hrecipe).
  destruct (has_id (idMeal_of recipe) items); [reflexivity|].
  unfold bind, fs_writeFile, console_error, ret.
  destruct (writable w) eqn:Hwr; simpl; [reflexivity|now rewrite Hwr].
Qed.

Lemma removeFavorite_ready (id : JSON) (w : World) (items : list JSON) :
  favorites_of w = Some items -> no_null items ->
  removeFavorite id w =
    if Nat.eqb (length (without_id id items)) (length items)
    then (Return false, w)
    else if writable w
         then (Return true, set_file (Parsed (JArr (without_id id items))) w)
         else (Return false,
               mkWorld (file w) (readable w) (writable w)
                 (console w ++ [("Error removing favorite recipe:", EACCES)])).
Proof.
  intros Hfav Hnn.
  pose proof (favorites_of_file _ _ Hfav) as [Hfile Hrd].
  unfold removeFavorite, try_catch. unfold bind at 1.
  rewrite initializeFavorites_present by (rewrite Hfile; eauto).
  unfold bind at 1. rewrite (getFavorites_ready _ _ Hfav).
  unfold bind at 1. simpl as_array. unfold ret at 1.
  unfold bind at 1. rewrite (array_filter_ready id items w Hnn).
  destruct (Nat.eqb _ _); [reflexivity|].
  unfold bind, fs_writeFile, console_error, ret.
  destruct (writable w) eqn:Hwr; simpl; [reflexivity|now rewrite Hwr].
Qed.

Lemma isInFavorites_ready (id : JSON) (w : World) (items : list JSON) :
  favorites_of w = Some items -> no_null items ->
  isInFavorites id w = (Return (has_id (Some id) items), w).
Proof.
  intros Hfav Hnn. unfold isInFavorites, try_catch. unfold bind at 1.
  rewrite (getFavorites_ready _ _ Hfav).
  unfold bind at 1. simpl as_array. unfold ret at 1.
  now rewrite (array_some_ready (Some id) items w Hnn).
Qed.

Lemma getFavoriteById_ready (id : JSON) (w : World) (items : list JSON) :
  favorites_of w = Some items -> no_null items ->
  getFavoriteById id w =
    (Return match List.find (fun favorite =>
                               strict_eq (idMeal_of favorite) (Some id)) items
            with
            | Some favorite => if truthy favorite then favorite else JNull
            | None => JNull
            end, w).
Proof.
  intros Hfav Hnn. unfold getFavoriteById, try_catch. unfold bind at 1.
  rewrite (getFavorites_ready _ _ Hfav).
  unfold bind at 1. simpl as_array. unfold ret at 1.
  unfold bind at 1. now rewrite (array_find_ready id items w Hnn).
Qed.

(** ** Facts about the list *)

Lemma strict_eq_sym (a b : option JSON) : strict_eq a b = strict_eq b a.
Proof.
  destruct a as [[]|], b as [[]|]; simpl; try reflexivity.
  - now destruct b, b0.
  - apply Z.eqb_sym.
  - apply String.eqb_sym.
Qed.

Lemma strict_eq_refl (v : JSON) :
  is_primitive v = true -> strict_eq (Some v) (Some v) = true.
Proof.
  destruct v; simpl; try discriminate; intros _.
  - reflexivity.
  - now destruct b.
  - apply Z.eqb_refl.
  - apply String.eqb_refl.
Qed.

Lemma has_id_app (id : option JSON) (a b : list JSON) :
  has_id id (a ++ b) = has_id id a || has_id id b.
Proof. apply existsb_app. Qed.

Lemma without_id_length (id : JSON) (items : list JSON) :
  (length (without_id id items) <= length items)%nat.
Proof.
  induction items as [|x rest IH]; simpl; [lia|].
  destruct (strict_eq (idMeal_of x) (Some id)); simpl; lia.
Qed.

Lemma without_id_absent (id : JSON) (items : list JSON) :
  has_id (Some id) items = false -> without_id id items = items.
Proof.
  induction items as [|x rest IH]; simpl; [reflexivity|].
  destruct (strict_eq (idMeal_of x) (Some id)); simpl; [discriminate|].
  intros Hrest. now rewrite IH.
Qed.

Lemma without_id_present (id : JSON) (items : list JSON) :
  has_id (Some id) items = true ->
  Nat.eqb (length (without_id id items)) (length items) = false.
Proof.
  intros Hhas. apply Nat.eqb_neq.
  induction items as [|x rest IH]; simpl in *; [discriminate|].
  pose proof (without_id_length id rest).
  destruct (strict_eq (idMeal_of x) (Some id)); simpl in *; [lia|].
  specialize (IH Hhas). lia.
Qed.

Lemma has_id_without_id (id : JSON) (items : list JSON) :
  has_id (Some id) (without_id id items) = false.
Proof.
  induction items as [|x rest IH]; simpl; [reflexivity|].
  destruct (strict_eq (idMeal_of x) (Some id)) eqn:Hx; simpl; [exact IH|].
  now rewrite Hx.
Qed.

Lemma has_id_false (id : option JSON) (items : list JSON) (x : JSON) :
  has_id id items = false -> In x items -> strict_eq (idMeal_of x) id = false.
Proof.
  unfold has_id. intros Hhas Hin.
  destruct (strict_eq (idMeal_of x) id) eqn:Hx; [|reflexivity].
  assert (existsb (fun favorite => strict_eq (idMeal_of favorite) id) items
          = true) by (apply existsb_exists; eauto).
  congruence.
Qed.

Lemma no_null_app (a b : list JSON) :
  no_null a -> no_null b -> no_null (a ++ b).
Proof. unfold no_null. intros. now apply Forall_app. Qed.

Lemma no_null_without_id (id : JSON) (items : list JSON) :
  no_null items -> no_null (without_id id items).
Proof.
  unfold no_null, without_id. rewrite !List.Forall_forall.
  intros Hnn x Hin. apply List.filter_In in Hin as [Hin _]. auto.
Qed.

Lemma idMeal_of_not_null (v id : JSON) : idMeal_of v = Some id -> v <> JNull.
Proof. intros Hid ->. discriminate. Qed.

Lemma favorites_of_set_file (items : list JSON) (w : World) :
  readable w = true ->
  favorites_of (set_file (Parsed (JArr items)) w) = Some items.
Proof. unfold favorites_of. simpl. now intros ->. Qed.

Lemma set_file_same (w : World) (text : FileText) :
  file w = Some text -> set_file text w = w.
Proof. destruct w. simpl. now intros ->. Qed.

Lemma set_file_twice (a b : FileText) (w : World) :
  set_file b (set_file a w) = set_file b w.
Proof. reflexivity. Qed.

(** ** The operations *)

(** X14: add, then look up.  On a readable list without [null], on a medium
    that can be written, adding a recipe whose [idMeal] is a primitive value
    no favorite has appends it to the list and returns [true]; afterwards
    [isInFavorites] of that id is [true] and [getFavoriteById] returns the
    recipe added. *)
Theorem addFavorite_then_found (recipe id : JSON) (w : World)
    (items : list JSON) :
  favorites_of w = Some items ->
  writable w = true ->
  no_null items ->
  idMeal_of recipe = Some id ->
  is_primitive id = true ->
  has_id (Some id) items = false ->
  let w' := set_file (Parsed (JArr (items ++ [recipe])%list)) w in
  addFavorite recipe w = (Return true, w') /\
  isInFavorites id w' = (Return true, w') /\
  getFavoriteById id w' = (Return recipe, w').
Proof.
  intros Hfav Hwr Hnn Hid Hprim Hnew w'.
  pose proof (idMeal_of_not_null _ _ Hid) as Hrecipe.
  pose proof (favorites_of_file _ _ Hfav) as [_ Hrd].
  assert (Hfav' : favorites_of w' = Some (items ++ [recipe])%list)
    by now apply favorites_of_set_file.
  assert (Hnn' : no_null (items ++ [recipe])%list).
  { apply no_null_app; [assumption|]. now constructor. }
  assert (Hself : strict_eq (idMeal_of recipe) (Some id) = true).
  { rewrite Hid. now apply strict_eq_refl. }
  split; [|split].
  - rewrite (addFavorite_ready _ _ _ Hfav Hnn Hrecipe). now rewrite Hid, Hnew, Hwr.
  - rewrite (isInFavorites_ready _ _ _ Hfav' Hnn').
    rewrite has_id_app, Hnew. simpl. now rewrite Hself.
  - rewrite (getFavoriteById_ready _ _ _ Hfav' Hnn'). do 2 f_equal.
    assert (Hfind : List.find (fun favorite =>
                       strict_eq (idMeal_of favorite) (Some id))
                      (items ++ [recipe])%list = Some recipe).
    { clear Hfav Hfav' Hnn Hnn'. induction items as [|x rest IH]; simpl.
      - now rewrite Hself.
      - simpl in Hnew.
        destruct (strict_eq (idMeal_of x) (Some id)); [discriminate|].
        now apply IH. }
    rewrite Hfind. destruct recipe; try discriminate. reflexivity.
Qed.

Lemma addFavorite_then_found_witness :
  addFavorite pie soup_saved
    = (Return true, healthy (Some (Parsed (JArr [soup; pie])))) /\
  getFavoriteById (JStr "52855") (healthy (Some (Parsed (JArr [soup; pie]))))
    = (Return pie, healthy (Some (Parsed (JArr [soup; pie])))).
Proof.
  assert (Hnn : no_null [soup]) by (repeat constructor; discriminate).
  destruct (addFavorite_then_found pie (JStr "52855") soup_saved [soup]
              eq_refl eq_refl Hnn eq_refl eq_refl eq_refl)
    as (Hadd & _ & Hget).
  split; [exact Hadd|exact Hget].
Defined.

(** X15: no duplicates.  A recipe whose [idMeal] some favorite already has
    is refused: [addFavorite] returns [false] and changes nothing, whatever
    the other fields of the recipe. *)
Theorem addFavorite_refuses_duplicate (recipe : JSON) (w : World)
    (items : list JSON) :
  favorites_of w = Some items ->
  no_null items ->
  recipe <> JNull ->
  has_id (idMeal_of recipe) items = true ->
  addFavorite recipe w = (Return false, w).
Proof.
  intros Hfav Hnn Hrecipe Hdup.
  rewrite (addFavorite_ready _ _ _ Hfav Hnn Hrecipe). now rewrite Hdup.
Qed.

Lemma addFavorite_refuses_duplicate_witness :
  addFavorite (JObj [("idMeal", JStr "52772"); ("strMeal", JStr "Stew")])
    soup_saved
  = (Return false, soup_saved).
Proof.
  assert (Hnn : no_null [soup]) by (repeat constructor; discriminate).
  apply (addFavorite_refuses_duplicate _ soup_saved [soup] eq_refl Hnn);
    [discriminate|reflexivity].
Defined.

(** X16: on a readable list without [null], on a medium that can be
    written, [removeFavorite] of an id some favorite has returns [true] and
    rewrites the list without every favorite of that id, the others kept in
    their order; afterwards [isInFavorites] of the id is [false]. *)
Theorem removeFavorite_removes_every_match (id : JSON) (w : World)
    (items : list JSON) :
  favorites_of w = Some items ->
  writable w = true ->
  no_null items ->
  has_id (Some id) items = true ->
  let w' := set_file (Parsed (JArr (without_id id items))) w in
  removeFavorite id w = (Return true, w') /\
  isInFavorites id w' = (Return false, w') /\
  (forall favorite : JSON,
     In favorite (without_id id items) <->
     In favorite items /\ strict_eq (idMeal_of favorite) (Some id) = false).
Proof.
  intros Hfav Hwr Hnn Hhas w'.
  pose proof (favorites_of_file _ _ Hfav) as [_ Hrd].
  split; [|split].
  - rewrite (removeFavorite_ready _ _ _ Hfav Hnn).
    now rewrite (without_id_present _ _ Hhas), Hwr.
  - rewrite (isInFavorites_ready id w' (without_id id items)).
    + now rewrite has_id_without_id.
    + now apply favorites_of_set_file.
    + now apply no_null_without_id.
  - intros favorite. unfold without_id. rewrite List.filter_In.
    now rewrite Bool.negb_true_iff.
Qed.

Lemma removeFavorite_removes_every_match_witness :
  removeFavorite (JStr "52772") soup_saved
    = (Return true, healthy (Some (Parsed (JArr [])))).
Proof.
  assert (Hnn : no_null [soup]) by (repeat constructor; discriminate).
  destruct (removeFavorite_removes_every_match (JStr "52772") soup_saved
              [soup] eq_refl eq_refl Hnn eq_refl) as (Hrem & _).
  exact Hrem.
Defined.



(** X18: add, then remove.  Removing the id of a recipe just added, by the
    conditions of X14, returns [true] and leaves the file exactly as it was
    before the recipe was added. *)
Theorem addFavorite_then_removeFavorite (recipe id : JSON) (w : World)
    (items : list JSON) :
  favorites_of w = Some items ->
  writable w = true ->
  no_null items ->
  idMeal_of recipe = Some id ->
  is_primitive id = true ->
  has_id (Some id) items = false ->
  addFavorite recipe w
    = (Return true, set_file (Parsed (JArr (items ++ [recipe])%list)) w) /\
  removeFavorite id (set_file (Parsed (JArr (items ++ [recipe])%list)) w)
    = (Return true, w).
Proof.
  intros Hfav Hwr Hnn Hid Hprim Hnew.
  pose proof (idMeal_of_not_null _ _ Hid) as Hrecipe.
  pose proof (favorites_of_file _ _ Hfav) as [Hfile Hrd].
  assert (Hself : strict_eq (idMeal_of recipe) (Some id) = true).
  { rewrite Hid. now apply strict_eq_refl. }
  split.
  - rewrite (addFavorite_ready _ _ _ Hfav Hnn Hrecipe). now rewrite Hid, Hnew, Hwr.
  - rewrite (removeFavorite_ready id _ (items ++ [recipe])%list).
    + assert (Hback : without_id id (items ++ [recipe])%list = items).
      { unfold without_id. rewrite List.filter_app. simpl. rewrite Hself. simpl.
        rewrite app_nil_r. now apply without_id_absent. }
      rewrite Hback, length_app. simpl.
      replace (Nat.eqb (length items) (length items + 1)) with false
        by (symmetry; apply Nat.eqb_neq; lia).
      simpl. rewrite Hwr, set_file_twice. now rewrite set_file_same.
    + now apply favorites_of_set_file.
    + apply no_null_app; [assumption|]. now constructor.
Qed.

Lemma addFavorite_then_removeFavorite_witness :
  removeFavorite (JStr "52855") (healthy (Some (Parsed (JArr [soup; pie]))))
    = (Return true, soup_saved).
Proof.
  assert (Hnn : no_null [soup]) by (repeat constructor; discriminate).
  destruct (addFavorite_then_removeFavorite pie (JStr "52855") soup_saved
              [soup] eq_refl eq_refl Hnn eq_refl eq_refl eq_refl)
    as (_ & Hrem).
  exact Hrem.
Defined.

Lemma try_catch_returns {A} (m : Async A) (message : string) (a : A)
    (w : World) :
  exists (r : A) (w' : World),
    try_catch m (fun error => bind (console_error message error)
                                   (fun _ => ret a)) w
    = (Return r, w').
Proof.
  unfold try_catch. destruct (m w) as [[r|e] w']; eauto.
Qed.

(** X19: [getFavorites], [addFavorite], [removeFavorite], [isInFavorites]
    and [getFavoriteById] never throw, whatever the file holds and whatever
    they are given; [initializeFavorites] does, and only when the file is
    missing and cannot be created, with the error of the file system. *)
Theorem favorites_operations_never_throw (recipe id : JSON) (w : World) :
  (exists r w', getFavorites w = (Return r, w')) /\
  (exists r w', addFavorite recipe w = (Return r, w')) /\
  (exists r w', removeFavorite id w = (Return r, w')) /\
  (exists r w', isInFavorites id w = (Return r, w')) /\
  (exists r w', getFavoriteById id w = (Return r, w')) /\
  (forall e, (initializeFavorites w).1 = Throw e ->
     file w = None /\ writable w = false /\ e = EACCES).
Proof.
  do 5 (split; [apply try_catch_returns|]).
  intros e Hthrow.
  destruct (file w) as [text|] eqn:Hfile.
  - rewrite initializeFavorites_present in Hthrow by eauto. discriminate.
  - rewrite initializeFavorites_absent in Hthrow by assumption.
    destruct (writable w); [discriminate|]. simpl in Hthrow.
    injection Hthrow as <-. auto.
Qed.

Lemma favorites_operations_never_throw_witness :
  (initializeFavorites (mkWorld None true false [])).1 = Throw EACCES /\
  (getFavorites (mkWorld None true false [])).1 = Return (JArr []).
Proof.
  destruct (favorites_operations_never_throw soup (JStr "52772")
              (mkWorld None true false []))
    as ((r & w' & Hget) & _ & _ & _ & _ & Hinit).
  split.
  - destruct (Hinit EACCES eq_refl) as (_ & _ & _). reflexivity.
  - rewrite Hget. vm_compute in Hget. now injection Hget as <- _.
Defined.

Lemma has_id_filter (id : option JSON) (keep : JSON -> bool)
    (items : list JSON) :
  has_id id items = false -> has_id id (List.filter keep items) = false.
Proof.
  induction items as [|x rest IH]; simpl; [reflexivity|].
  destruct (strict_eq (idMeal_of x) id) eqn:Hx; simpl; [discriminate|].
  intros Hrest. destruct (keep x); simpl; [rewrite Hx|]; now apply IH.
Qed.

Lemma unique_ids_filter (keep : JSON -> bool) (items : list JSON) :
  unique_ids items -> unique_ids (List.filter keep items).
Proof.
  induction items as [|x rest IH]; simpl; [trivial|].
  intros [Hx Hrest]. destruct (keep x); simpl; [split|]; auto.
  now apply has_id_filter.
Qed.

Lemma unique_ids_snoc (recipe : JSON) (items : list JSON) :
  unique_ids items ->
  has_id (idMeal_of recipe) items = false ->
  unique_ids (items ++ [recipe])%list.
Proof.
  induction items as [|x rest IH]; simpl.
  - auto.
  - intros [Hx Hrest] Hnew.
    destruct (strict_eq (idMeal_of x) (idMeal_of recipe)) eqn:Hxr;
      [discriminate|].
    simpl in Hnew. split; [|now apply IH].
    rewrite has_id_app, Hx. simpl.
    now rewrite strict_eq_sym, Hxr.
Qed.

(** Adding [null]: on an empty list no callback runs and [null] is
    stored; otherwise reading [null.idMeal] throws inside the callback. *)
Lemma addFavorite_null (w : World) (items : list JSON) :
  favorites_of w = Some items -> no_null items ->
  addFavorite JNull w =
    match items with
    | [] => if writable w
            then (Return true, set_file (Parsed (JArr [JNull])) w)
            else (Return false,
                  mkWorld (file w) (readable w) (writable w)
                    (console w ++ [("Error adding favorite recipe:", EACCES)]))
    | _ :: _ => (Return false,
                 mkWorld (file w) (readable w) (writable w)
                   (console w ++ [("Error adding favorite recipe:", TypeError)]))
    end.
Proof.
  intros Hfav Hnn.
  pose proof (favorites_of_file _ _ Hfav) as [Hfile Hrd].
  unfold addFavorite, try_catch. unfold bind at 1.
  rewrite initializeFavorites_present by (rewrite Hfile; eauto).
  unfold bind at 1. rewrite (getFavorites_ready _ _ Hfav).
  unfold bind at 1. simpl as_array. unfold ret at 1.
  destruct Hnn as [|x rest Hx Hrest].
  - unfold bind, fs_writeFile, console_error, ret. simpl.
    destruct (writable w) eqn:Hwr; simpl; [reflexivity|now rewrite Hwr].
  - simpl array_some. unfold bind at 1 2 3.
    now rewrite (get_idMeal_eq x w Hx).
Qed.

(** What [addFavorite] leaves in the file when the list can be read. *)
Lemma addFavorite_list (recipe : JSON) (w : World) (items : list JSON) :
  favorites_of w = Some items -> no_null items ->
  favorites_of (addFavorite recipe w).2 = Some items \/
  (has_id (idMeal_of recipe) items = false /\
   favorites_of (addFavorite recipe w).2 = Some (items ++ [recipe])%list).
Proof.
  intros Hfav Hnn.
  pose proof (favorites_of_file _ _ Hfav) as [Hfile Hrd].
  assert (Hsame : forall c, favorites_of
                    (mkWorld (file w) (readable w) (writable w) c)
                  = Some items).
  { intros c. unfold favorites_of. simpl. now rewrite Hfile, Hrd. }
  assert (Hcase : recipe = JNull \/ recipe <> JNull)
    by (destruct recipe; (now left) || (right; discriminate)).
  destruct Hcase as [->|Hrecipe].
  - rewrite (addFavorite_null _ _ Hfav Hnn).
    destruct items as [|x rest]; [|left; apply Hsame].
    destruct (writable w); simpl; [|left; apply Hsame].
    right. split; [reflexivity|]. now apply favorites_of_set_file.
  - rewrite (addFavorite_ready _ _ _ Hfav Hnn Hrecipe).
    destruct (has_id (idMeal_of recipe) items) eqn:Hdup; [now left|].
    destruct (writable w); simpl; [|left; apply Hsame].
    right. split; [reflexivity|]. now apply favorites_of_set_file.
Qed.

(** X20: the list keeps its ids apart.  If no two favorites of a readable
    list without [null] have strictly equal [idMeal]s, the same holds of the
    list after [addFavorite] and after [removeFavorite], whatever they are
    given and whether they succeed or not. *)
Theorem unique_ids_preserved (recipe id : JSON) (w : World)
    (items : list JSON) :
  favorites_of w = Some items ->
  no_null items ->
  unique_ids items ->
  (forall items', favorites_of (addFavorite recipe w).2 = Some items' ->
     unique_ids items') /\
  (forall items', favorites_of (removeFavorite id w).2 = Some items' ->
     unique_ids items').
Proof.
  intros Hfav Hnn Huniq.
  pose proof (favorites_of_file _ _ Hfav) as [Hfile Hrd].
  split; intros items' Hafter.
  - destruct (addFavorite_list recipe w items Hfav Hnn)
      as [Hsame|[Hnew Happ]].
    + rewrite Hsame in Hafter. now injection Hafter as <-.
    + rewrite Happ in Hafter. injection Hafter as <-.
      now apply unique_ids_snoc.
  - rewrite (removeFavorite_ready _ _ _ Hfav Hnn) in Hafter.
    destruct (Nat.eqb _ _).
    + simpl in Hafter. rewrite Hfav in Hafter. now injection Hafter as <-.
    + destruct (writable w); simpl in Hafter.
      * rewrite favorites_of_set_file in Hafter by assumption.
        injection Hafter as <-. now apply unique_ids_filter.
      * unfold favorites_of in Hafter. simpl in Hafter.
        rewrite Hfile, Hrd in Hafter. now injection Hafter as <-.
Qed.

Lemma unique_ids_preserved_witness :
  unique_ids [soup; pie].
Proof.
  assert (Hnn : no_null [soup]) by (repeat constructor; discriminate).
  assert (Huniq : unique_ids [soup]) by (split; [reflexivity|exact I]).
  destruct (unique_ids_preserved pie (JStr "52855") soup_saved [soup]
              eq_refl Hnn Huniq) as [Hadd _].
  apply Hadd. reflexivity.
Defined.

(** X21: the two lookups agree.  On a readable list without [null],
    [isInFavorites] says [true] exactly when [getFavoriteById] returns a
    recipe rather than [null]; the recipe returned is a favorite of the list
    whose [idMeal] is strictly equal to the id; neither changes anything. *)
Theorem lookups_agree (id : JSON) (w : World) (items : list JSON) :
  favorites_of w = Some items ->
  no_null items ->
  exists (found : bool) (favorite : JSON),
    isInFavorites id w = (Return found, w) /\
    getFavoriteById id w = (Return favorite, w) /\
    (found = true <-> favorite <> JNull) /\
    (favorite <> JNull ->
     In favorite items /\ strict_eq (idMeal_of favorite) (Some id) = true).
Proof.
  intros Hfav Hnn.
  rewrite (isInFavorites_ready _ _ _ Hfav Hnn).
  rewrite (getFavoriteById_ready _ _ _ Hfav Hnn).
  eexists _, _. split; [reflexivity|]. split; [reflexivity|].
  destruct (List.find _ items) as [favorite|] eqn:Hfind.
  - apply List.find_some in Hfind as [Hin Hmatch].
    assert (Hobj : truthy favorite = true /\ favorite <> JNull).
    { destruct favorite; try discriminate. now split. }
    destruct Hobj as [-> Hnot]. split; [|auto].
    split; [auto|]. intros _. unfold has_id. apply existsb_exists. eauto.
  - split; [|congruence]. split; [|congruence].
    intros Hhas. unfold has_id in Hhas.
    apply existsb_exists in Hhas as (x & Hin & Hx).
    now rewrite (List.find_none _ _ Hfind x Hin) in Hx.
Qed.

Lemma lookups_agree_witness :
  exists (found : bool) (favorite : JSON),
    isInFavorites (JStr "52772") soup_saved = (Return found, soup_saved) /\
    getFavoriteById (JStr "52772") soup_saved = (Return favorite, soup_saved)
    /\ (found = true <-> favorite <> JNull).
Proof.
  assert (Hnn : no_null [soup]) by (repeat constructor; discriminate).
  destruct (lookups_agree (JStr "52772") soup_saved [soup] eq_refl Hnn)
    as (found & favorite & Hin & Hget & Hiff & _).
  exists found, favorite. auto.
Defined.

(** X22: a missing file is an empty list.  On a healthy medium without the
    file, every operation first creates the file holding [[]]: the lookups
    answer [[]], [false] and [null], [removeFavorite] returns [false], and
    [addFavorite] returns [true] and leaves the one recipe in the file. *)
Theorem missing_file_is_empty_list (recipe id : JSON) (w : World) :
  file w = None ->
  readable w = true ->
  writable w = true ->
  let created := set_file (Parsed (JArr [])) w in
  getFavorites w = (Return (JArr []), created) /\
  isInFavorites id w = (Return false, created) /\
  getFavoriteById id w = (Return JNull, created) /\
  removeFavorite id w = (Return false, created) /\
  addFavorite recipe w = (Return true, set_file (Parsed (JArr [recipe])) w).
Proof.
  destruct w as [f rd wr c]. simpl. intros -> -> ->.
  repeat split; reflexivity.
Qed.

Lemma missing_file_is_empty_list_witness :
  addFavorite soup (healthy None) = (Return true, soup_saved).
Proof.
  destruct (missing_file_is_empty_list soup (JStr "52772") (healthy None)
              eq_refl eq_refl eq_refl) as (_ & _ & _ & _ & Hadd).
  exact Hadd.
Defined.

(** X23: a file that cannot be read or does not parse is treated as an
    empty list and silently replaced: [getFavorites] logs the error and
    returns [[]], [removeFavorite] returns [false] and leaves the file, and
    [addFavorite], on a writable medium, returns [true] and overwrites the
    file with the one recipe. *)
Theorem unreadable_file_is_replaced (recipe id : JSON) (w : World) :
  is_Some (file w) ->
  unreadable w ->
  writable w = true ->
  (getFavorites w).1 = Return (JArr []) /\
  file (getFavorites w).2 = file w /\
  (removeFavorite id w).1 = Return false /\
  file (removeFavorite id w).2 = file w /\
  (addFavorite recipe w).1 = Return true /\
  file (addFavorite recipe w).2 = Some (Parsed (JArr [recipe])).
Proof.
  destruct w as [f rd wr c]. simpl. intros [text ->] Hbad ->.
  destruct Hbad as [Hrd|[raw Hraw]]; simpl in *.
  - subst rd. repeat split; reflexivity.
  - injection Hraw as ->. destruct rd; repeat split; reflexivity.
Qed.

Lemma unreadable_file_is_replaced_witness :
  (addFavorite soup (healthy (Some (Malformed "[oops")))).1 = Return true /\
  file (addFavorite soup (healthy (Some (Malformed "[oops")))).2
    = Some (Parsed (JArr [soup])).
Proof.
  destruct (unreadable_file_is_replaced soup (JStr "52772")
              (healthy (Some (Malformed "[oops"))))
    as (_ & _ & _ & _ & Hadd & Hfile).
  - simpl. eauto.
  - right. simpl. eauto.
  - reflexivity.
  - split; [exact Hadd|exact Hfile].
Defined.

End FavoritesProperties.
